(** * Change-Click: pixel-change detection, key taps and the monitoring
      controller of [src/main.py], with the properties of its specification.

    The development follows the layout of the program:
    - [ChangeDetector.has_changed] is a pure function on colour samples;
    - [NaturalKeySender.tap] produces a short sequence of keyboard actions
      and sleeps, driven by two random draws;
    - [ChangeClickController] is a lock-protected record shared between the
      listener callbacks and the polling threads it starts.  Every block
      that runs under [_state_lock] is one atomic step; the code between
      two such blocks is split at each call to a collaborator. *)

From Stdlib Require Import ZArith QArith Qround Qpower Ascii Lia Lqa.
From Stdlib Require PrimFloat FloatOps SpecFloat.
From stdpp Require Import base list gmap strings.

Local Open Scope Z_scope.

(* ===================================================================== *)
(** ** Colours *)
(* ===================================================================== *)

(** [RGB = Tuple[int, int, int]]; Python integers are unbounded. *)
Definition RGB : Type := Z * Z * Z.

(** Iterating over an RGB tuple yields its three channels in order. *)
Definition channels (c : RGB) : list Z :=
  let '(r, g, b) := c in [r; g; b].

(** Python's [sum] over a finite iterable of integers. *)
Definition sum (l : list Z) : Z := foldr Z.add 0 l.

(** [sum(abs(a - b) for a, b in zip(base, cur))] *)
Definition delta (base cur : RGB) : Z :=
  sum (map (fun ab : Z * Z => Z.abs (fst ab - snd ab))
           (zip (channels base) (channels cur))).

(* ===================================================================== *)
(** ** ChangeDetector *)
(* ===================================================================== *)

Record ChangeDetector : Type := {
  _tolerance : Z;
  _minimum_changed_pixels : Z
}.

(** [ChangeDetector()] with the default arguments. *)
Definition default_detector : ChangeDetector :=
  {| _tolerance := 18; _minimum_changed_pixels := 1 |}.

(** The body of the [for base, cur in zip(baseline, current)] loop of
    [has_changed], started with the local [changes] and the pairs that
    remain.  [return True] leaves the loop at once; falling off the end of
    the loop reaches [return False]. *)
Fixpoint has_changed_from (self : ChangeDetector) (changes : Z)
    (pairs : list (RGB * RGB)) : bool :=
  match pairs with
  | [] => false
  | (base, cur) :: rest =>
      if delta base cur >? _tolerance self then
        let changes := changes + 1 in
        if changes >=? _minimum_changed_pixels self then true
        else has_changed_from self changes rest
      else has_changed_from self changes rest
  end.

Definition has_changed (self : ChangeDetector)
    (baseline current : list RGB) : bool :=
  has_changed_from self 0 (zip baseline current).

(** The same loop with a counter of the pixel pairs it takes out of the
    [zip] iterator (each pair taken has its [delta] computed exactly
    once).  The first component is what [has_changed_from] returns. *)
Fixpoint has_changed_examined_from (self : ChangeDetector) (changes : Z)
    (pairs : list (RGB * RGB)) : bool * nat :=
  match pairs with
  | [] => (false, O)
  | (base, cur) :: rest =>
      if delta base cur >? _tolerance self then
        let changes := changes + 1 in
        if changes >=? _minimum_changed_pixels self then (true, 1%nat)
        else
          let '(r, n) := has_changed_examined_from self changes rest in
          (r, S n)
      else
        let '(r, n) := has_changed_examined_from self changes rest in
        (r, S n)
  end.

Definition has_changed_examined (self : ChangeDetector)
    (baseline current : list RGB) : bool * nat :=
  has_changed_examined_from self 0 (zip baseline current).

(** *** The specification's wording of the comparison *)

(** Manhattan distance in RGB space, [|R_b-R_c| + |G_b-G_c| + |B_b-B_c|]. *)
Definition manhattan (b c : RGB) : Z :=
  let '(rb, gb, bb) := b in
  let '(rc, gc, bc) := c in
  Z.abs (rb - rc) + Z.abs (gb - gc) + Z.abs (bb - bc).

(** A pixel counts as changed when its distance exceeds the tolerance. *)
Definition pixel_changed (tol : Z) (b c : RGB) : bool :=
  manhattan b c >? tol.

(** The indices [i] below the common length at which the two samples
    differ by more than [tol]. *)
Definition changed_indices (tol : Z) (baseline current : list RGB) : list nat :=
  List.filter
    (fun i =>
       match baseline !! i, current !! i with
       | Some b, Some c => pixel_changed tol b c
       | _, _ => false
       end)
    (seq 0 (length baseline)).

(** The running count of changed pixels after the given pairs. *)
Definition running_count (tol : Z) (pairs : list (RGB * RGB)) : Z :=
  Z.of_nat (length (List.filter (fun bc => pixel_changed tol (fst bc) (snd bc)) pairs)).

(* ===================================================================== *)
(** ** NaturalKeySender *)
(* ===================================================================== *)

(** [keyboard.KeyCode.from_char(c)] *)
Inductive Key : Type :=
  | from_char (c : Ascii.ascii).

(** What a key sender does to the outside world: [time.sleep(seconds)],
    [self._controller.press(key)] and [self._controller.release(key)]. *)
Inductive Action : Type :=
  | sleep (seconds : Q)
  | press (key : Key)
  | release (key : Key).

(** *** Floating-point numbers

    Python's [float] is the IEEE 754 binary64 format and its arithmetic
    rounds to nearest, ties to even.  A finite float is the rational it
    stands for; the functions below round a rational to the float next to
    it. *)

(** The integer nearest to [m]; of two equally near ones, the even one. *)
Definition round_half_even (m : Q) : Z :=
  let f := Qfloor m in
  match Qcompare (m - inject_Z f) (1 # 2) with
  | Lt => f
  | Gt => f + 1
  | Eq => if Z.even f then f else f + 1
  end.

(** For [x > 0], the exponent [e] with [2 ^ e <= x < 2 ^ (e + 1)]. *)
Definition binade (x : Q) : Z :=
  let k := Z.log2 (Qnum x) - Z.log2 (Zpos (Qden x)) in
  if Qle_bool (2 ^ k) x then k else k - 1.

(** For [x > 0], the nearest multiple of the unit in the last place: 53
    significant bits in the binade of [x], and the fixed unit
    [2 ^ -1074] below [2 ^ -1022].  (Above the largest float binary64
    gives infinity; no value of this program comes near.) *)
Definition nearest (x : Q) : Q :=
  let e := Z.max (binade x) (-1022) in
  (inject_Z (round_half_even (x * 2 ^ (52 - e))) * 2 ^ (e - 52))%Q.

(** The float a real result is rounded to. *)
Definition binary64 (x : Q) : Q :=
  match Qnum x with
  | Z0 => 0%Q
  | Zpos _ => Qred (nearest x)
  | Zneg _ => Qred (- nearest (- x))
  end.

(** [random.uniform(a, b)] is [a + (b - a) * random()] in float
    arithmetic: the subtraction, the product and the sum are each rounded.
    [u] is the float [random()] returns. *)
Definition uniform (a b u : Q) : Q :=
  binary64 (a + binary64 (binary64 (b - a) * u)).

(** The same on the binary64 floats of the Rocq kernel, to compare the
    rounding above with. *)
Module KernelFloat.
Import PrimFloat FloatOps SpecFloat.

(** The rational a finite float stands for. *)
Definition float_value (f : float) : option Q :=
  match Prim2SF f with
  | S754_zero _ => Some 0%Q
  | S754_finite s m e =>
      Some (Qred ((if s then -1 else 1) * inject_Z (Zpos m) * 2 ^ e))%Q
  | _ => None
  end.

Definition uniform (a b u : float) : float := (a + (b - a) * u)%float.

(** [random.uniform(0.03, 0.08)] and [random.uniform(0.01, 0.04)] at the
    draw [u]. *)
#[warnings="-inexact-float"]
Definition before (u : float) : float := uniform 0.03 0.08 u.

#[warnings="-inexact-float"]
Definition hold (u : float) : float := uniform 0.01 0.04 u.

End KernelFloat.

Record NaturalKeySender : Type := {
  _key : Key
}.

(** [tap] runs under the sender's own lock, so the four actions of one tap
    are never interleaved with those of another; [u1] and [u2] are the two
    draws of the random generator, in call order.  The literals [0.03],
    [0.08], [0.01] and [0.04] are the floats nearest to these decimals;
    durations are in seconds. *)
Definition tap (self : NaturalKeySender) (u1 u2 : Q) : list Action :=
  [ sleep (uniform (binary64 (3 # 100)) (binary64 (8 # 100)) u1);
    press (_key self);
    sleep (uniform (binary64 (1 # 100)) (binary64 (4 # 100)) u2);
    release (_key self) ].

(** A draw of [random()]: one of the floats [k / 2 ^ 53] with
    [0 <= k < 2 ^ 53]. *)
Definition unit_draw (u : Q) : Prop :=
  exists k : Z, 0 <= k < 2 ^ 53 /\ (u == k # 2 ^ 53)%Q.

(** The key events of a list of actions, sleeps removed. *)
Definition key_events (l : list Action) : list Action :=
  List.filter (fun a => match a with sleep _ => false | _ => true end) l.

(* ===================================================================== *)
(** ** ChangeClickController *)
(* ===================================================================== *)

Module Button.
(** [pynput.mouse.Button] *)
Inductive t : Type := unknown | left | middle | right | x1 | x2.

Definition eqb (a b : t) : bool :=
  match a, b with
  | unknown, unknown | left, left | middle, middle
  | right, right | x1, x1 | x2, x2 => true
  | _, _ => false
  end.
End Button.

(** What one call of [self._sampler.sample()] does: it returns the colours
    of the sample points, or a pixel read fails and the call raises. *)
Inductive SampleOutcome : Type :=
  | Colours (colours : list RGB)
  | CaptureError.

(** How a call ends. *)
Inductive Completion : Type :=
  | returned
  | raised.

(** The fields of [ChangeClickController].  [_monitor_thread] holds the
    index of the thread created last. *)
Record ChangeClickController : Type := {
  _detector : ChangeDetector;
  _sender : NaturalKeySender;
  _poll_interval : Q;
  _baseline : option (list RGB);
  _monitoring : bool;
  _monitor_thread : option nat
}.

(** Where a thread running [_watch_for_changes] stands.  The local
    variables that are live at that point are carried along. *)
Inductive Poller : Type :=
  | at_check                          (* top of [while True], before the lock *)
  | at_sample (baseline : list RGB)   (* before [self._sampler.sample()] *)
  | at_tap (current : list RGB)       (* before [self._sender.tap()] *)
  | at_rebase (current : list RGB)    (* before the second locked block *)
  | at_sleep                          (* before [time.sleep(...)] *)
  | finished                          (* left the loop through [break] *)
  | died.                             (* an exception left the function *)

(** The controller, every polling thread it has started (by creation
    order) and everything the key sender has done so far. *)
Record World : Type := {
  controller : ChangeClickController;
  pollers : list Poller;
  keyboard : list Action
}.

Definition set_baseline (b : option (list RGB)) (c : ChangeClickController)
    : ChangeClickController :=
  {| _detector := _detector c; _sender := _sender c;
     _poll_interval := _poll_interval c;
     _baseline := b; _monitoring := _monitoring c;
     _monitor_thread := _monitor_thread c |}.

Definition set_monitoring (m : bool) (c : ChangeClickController)
    : ChangeClickController :=
  {| _detector := _detector c; _sender := _sender c;
     _poll_interval := _poll_interval c;
     _baseline := _baseline c; _monitoring := m;
     _monitor_thread := _monitor_thread c |}.

Definition set_monitor_thread (t : option nat) (c : ChangeClickController)
    : ChangeClickController :=
  {| _detector := _detector c; _sender := _sender c;
     _poll_interval := _poll_interval c;
     _baseline := _baseline c; _monitoring := _monitoring c;
     _monitor_thread := t |}.

Definition with_controller (c : ChangeClickController) (w : World) : World :=
  {| controller := c; pollers := pollers w; keyboard := keyboard w |}.

Definition with_poller (t : nat) (p : Poller) (w : World) : World :=
  {| controller := controller w; pollers := <[t := p]> (pollers w);
     keyboard := keyboard w |}.

(** [ChangeClickController(sampler, detector, sender, poll_interval)] *)
Definition new_controller (detector : ChangeDetector)
    (sender : NaturalKeySender) (poll_interval : Q) : ChangeClickController :=
  {| _detector := detector; _sender := sender;
     _poll_interval := poll_interval;
     _baseline := None; _monitoring := false; _monitor_thread := None |}.

(** The defaults of [__init__]: [ChangeDetector()], the key "x", 20 ms. *)
Definition default_controller : ChangeClickController :=
  new_controller default_detector
                 {| _key := from_char "x"%char |} (2 # 100).

Definition start_world (c : ChangeClickController) : World :=
  {| controller := c; pollers := []; keyboard := [] |}.

(** [_begin_monitoring]; [s] is what [self._sampler.sample()] does if it
    is called.  When the call raises, the assignment to [_baseline] and
    the statements after it are not executed and the lock is released. *)
Definition _begin_monitoring (w : World) (s : SampleOutcome)
    : World * Completion :=
  let c := controller w in
  if _monitoring c then (w, returned)
  else
    match s with
    | CaptureError => (w, raised)
    | Colours colours =>
        let c := set_baseline (Some colours) c in
        let c := set_monitoring true c in
        let c := set_monitor_thread (Some (length (pollers w))) c in
        ({| controller := c;
            pollers := pollers w ++ [at_check];
            keyboard := keyboard w |}, returned)
    end.

Definition _stop_monitoring (w : World) : World :=
  let c := set_monitoring false (controller w) in
  let c := set_baseline None c in
  with_controller c w.

Definition _handle_click (w : World) (button : Button.t) (pressed : bool)
    (s : SampleOutcome) : World * Completion :=
  if negb (Button.eqb button Button.x2) then (w, returned)
  else if pressed then _begin_monitoring w s
  else (_stop_monitoring w, returned).

(** One atomic step of the program. *)
Inductive Event : Type :=
  (** the listener thread runs [_handle_click] to its end *)
  | click (button : Button.t) (pressed : bool) (s : SampleOutcome)
  (** polling thread [t] runs the first locked block of its loop *)
  | poll_check (t : nat)
  (** polling thread [t] samples and compares *)
  | poll_sample (t : nat) (s : SampleOutcome)
  (** polling thread [t] runs [self._sender.tap()] with draws [u1], [u2] *)
  | poll_tap (t : nat) (u1 u2 : Q)
  (** polling thread [t] runs the second locked block *)
  | poll_rebase (t : nat)
  (** polling thread [t] sleeps for the poll interval *)
  | poll_sleep (t : nat).

(** The two events of the trigger button.  A release never calls the
    sampler, so the outcome it carries is not looked at. *)
Abbreviation ButtonPressed s := (click Button.x2 true s).
Abbreviation ButtonReleased := (click Button.x2 false (Colours [])).

(** [_watch_for_changes], one step at a time.  [None] means that thread
    [t] does not exist or is not at the point the event names. *)
Definition step (w : World) (e : Event) : option World :=
  let c := controller w in
  match e with
  | click button pressed s => Some (fst (_handle_click w button pressed s))
  | poll_check t =>
      match pollers w !! t with
      | Some at_check =>
          match _monitoring c, _baseline c with
          | true, Some baseline => Some (with_poller t (at_sample baseline) w)
          | _, _ => Some (with_poller t finished w)
          end
      | _ => None
      end
  | poll_sample t s =>
      match pollers w !! t with
      | Some (at_sample baseline) =>
          match s with
          | CaptureError => Some (with_poller t died w)
          | Colours current =>
              if has_changed (_detector c) baseline current
              then Some (with_poller t (at_tap current) w)
              else Some (with_poller t at_sleep w)
          end
      | _ => None
      end
  | poll_tap t u1 u2 =>
      match pollers w !! t with
      | Some (at_tap current) =>
          Some {| controller := c;
                  pollers := <[t := at_rebase current]> (pollers w);
                  keyboard := keyboard w ++ tap (_sender c) u1 u2 |}
      | _ => None
      end
  | poll_rebase t =>
      match pollers w !! t with
      | Some (at_rebase current) =>
          Some (with_poller t at_sleep
                  (with_controller (set_baseline (Some current) c) w))
      | _ => None
      end
  | poll_sleep t =>
      match pollers w !! t with
      | Some at_sleep => Some (with_poller t at_check w)
      | _ => None
      end
  end.

(** A schedule: the events in the order in which they take place. *)
Fixpoint run (w : World) (es : list Event) : option World :=
  match es with
  | [] => Some w
  | e :: es =>
      match step w e with
      | Some w' => run w' es
      | None => None
      end
  end.

(** The worlds that some schedule reaches from a fresh controller. *)
Definition reachable (c0 : ChangeClickController) (w : World) : Prop :=
  exists es, run (start_world c0) es = Some w.

(** A polling task exists while its thread has neither left the loop nor
    died. *)
Definition alive (p : Poller) : bool :=
  match p with
  | finished | died => false
  | _ => true
  end.

Definition polling_tasks (w : World) : nat :=
  length (List.filter alive (pollers w)).

(** The comparisons (calls of [has_changed]) thread [t] makes in a
    schedule: one for every sample it takes that does not raise. *)
Fixpoint comparisons (t : nat) (es : list Event) : nat :=
  match es with
  | [] => O
  | poll_sample t' (Colours _) :: es =>
      if Nat.eqb t t' then S (comparisons t es) else comparisons t es
  | _ :: es => comparisons t es
  end.

(** No event of the schedule is a press of the trigger button. *)
Fixpoint no_press (es : list Event) : bool :=
  match es with
  | [] => true
  | click Button.x2 true _ :: _ => false
  | _ :: es => no_press es
  end.

(** The thread an event belongs to; clicks run on the listener thread. *)
Definition thread_of (e : Event) : option nat :=
  match e with
  | click _ _ _ => None
  | poll_check t | poll_sample t _ | poll_tap t _ _
  | poll_rebase t | poll_sleep t => Some t
  end.

(** How many further comparisons a thread can make before its next state
    check. *)
Definition pending_comparisons (p : option Poller) : nat :=
  match p with
  | Some (at_sample _) => 1
  | _ => 0
  end.

(* ===================================================================== *)
(** ** Scenarios *)
(* ===================================================================== *)

(** The samples of the end-to-end scenarios: ten grey points, then the
    same with the red channel of the last point at 200, or at 20. *)
Definition grey : RGB := (10, 10, 10).
Definition steady : list RGB := repeat grey 10.
Definition flashed : list RGB := repeat grey 9 ++ [(200, 10, 10)].
Definition flickered : list RGB := repeat grey 9 ++ [(20, 10, 10)].

(** The button is held and the first sample of the loop shows a change. *)
Definition held_and_changed : list Event :=
  [ ButtonPressed (Colours steady);
    poll_check 0;
    poll_sample 0 (Colours flashed) ].

(** ... and the button is let go while the tap is still to come. *)
Definition released_during_tap : list Event :=
  held_and_changed ++
  [ ButtonReleased;
    poll_tap 0 (1 # 2) (1 # 2);
    poll_rebase 0 ].

(** The button is held, the loop has compared once and is about to sleep
    when the button is let go. *)
Definition held_then_released : list Event :=
  [ ButtonPressed (Colours steady);
    poll_check 0;
    poll_sample 0 (Colours steady);
    ButtonReleased ].

(** The button is pressed again before the first thread wakes up. *)
Definition pressed_again : list Event :=
  [ ButtonPressed (Colours steady);
    poll_sleep 0;
    poll_check 0;
    poll_sample 0 (Colours steady);
    poll_sleep 0;
    poll_check 0;
    poll_sample 0 (Colours steady) ].

(** The second press arrives while the first thread is still asleep;
    then both threads reach their state check. *)
Definition restarted_early : list Event :=
  held_then_released ++
  [ ButtonPressed (Colours steady);
    poll_sleep 0;
    poll_check 0;
    poll_check 1 ].

(** The world in which the button is held and the only polling thread is
    about to take a sample against the baseline [steady]. *)
Definition watching : World :=
  {| controller :=
       set_monitor_thread (Some 0%nat)
         (set_monitoring true
            (set_baseline (Some steady) default_controller));
     pollers := [at_sample steady];
     keyboard := [] |}.

(* ===================================================================== *)
(** ** PixelSampler *)
(* ===================================================================== *)

(** [SamplePoint], a frozen dataclass of two integers. *)
Module SamplePoint.
Record t : Type := { x : Z; y : Z }.
End SamplePoint.

(** [_default_offsets] *)
Definition _default_offsets : list (Z * Z) :=
  [ (0, 0); (-1, 0); (1, 0); (0, -1); (0, 1);
    (-1, -1); (1, -1); (-1, 1); (1, 1); (0, 2) ].

(** [cluster_offsets or self._default_offsets()]: the argument is used
    when it is given and not empty. *)
Definition offsets_or_default (cluster_offsets : option (list (Z * Z)))
    : list (Z * Z) :=
  match cluster_offsets with
  | Some (o :: os) => o :: os
  | _ => _default_offsets
  end.

(** [_compute_sample_points] on the monitor dictionary ([dict(sct.monitors[1])],
    with string keys) and the offsets.  [None] is the [KeyError] of a
    missing key; [//] is floor division. *)
Definition _compute_sample_points (_primary_monitor : gmap string Z)
    (_cluster_offsets : list (Z * Z)) : option (list SamplePoint.t) :=
  match _primary_monitor !! "left"%string, _primary_monitor !! "width"%string,
        _primary_monitor !! "top"%string, _primary_monitor !! "height"%string
  with
  | Some mleft, Some mwidth, Some mtop, Some mheight =>
      let centre_x := mleft + mwidth / 2 in
      let centre_y := mtop + mheight / 2 in
      Some (map (fun d : Z * Z =>
                   {| SamplePoint.x := centre_x + fst d;
                      SamplePoint.y := centre_y + snd d |})
                _cluster_offsets)
  | _, _, _, _ => None
  end.

Record PixelSampler : Type := {
  _primary_monitor : gmap string Z;
  _cluster_offsets : list (Z * Z);
  _sample_points : list SamplePoint.t
}.

(** [PixelSampler(cluster_offsets)], given what
    [_primary_monitor_geometry()] returns. *)
Definition new_sampler (monitor : gmap string Z)
    (cluster_offsets : option (list (Z * Z))) : option PixelSampler :=
  let offsets := offsets_or_default cluster_offsets in
  match _compute_sample_points monitor offsets with
  | Some points =>
      Some {| _primary_monitor := monitor;
              _cluster_offsets := offsets;
              _sample_points := points |}
  | None => None
  end.

(** A monitor dictionary as [mss] gives it. *)
Definition monitor_dict (mleft mtop mwidth mheight : Z) : gmap string Z :=
  <["left"%string := mleft]>
    (<["top"%string := mtop]>
       (<["width"%string := mwidth]>
          (<["height"%string := mheight]> ∅))).

(** The [threading.local()] of a sampler: the [sct] attribute of every
    thread that has one, and the number of [mss.mss()] instances made so
    far; an instance is named by its rank of creation. *)
Record ThreadLocal : Type := {
  sct : gmap nat nat;
  instances : nat
}.

Definition no_thread_local : ThreadLocal :=
  {| sct := ∅; instances := 0 |}.

(** [_thread_local_mss], called on thread [thread]. *)
Definition _thread_local_mss (tl : ThreadLocal) (thread : nat)
    : ThreadLocal * nat :=
  match sct tl !! thread with
  | Some handle => (tl, handle)
  | None =>
      ({| sct := <[thread := instances tl]> (sct tl);
          instances := S (instances tl) |}, instances tl)
  end.

(** The loop of [sample]: [grab x y] is the pixel
    [sct.grab(region).pixel(0, 0)] of the 1x1 region at [(x, y)], or
    [None] when the grab raises. *)
Fixpoint sample_from (grab : Z -> Z -> option RGB) (colours : list RGB)
    (points : list SamplePoint.t) : SampleOutcome :=
  match points with
  | [] => Colours colours
  | point :: rest =>
      match grab (SamplePoint.x point) (SamplePoint.y point) with
      | Some colour => sample_from grab (colours ++ [colour]) rest
      | None => CaptureError
      end
  end.

(** [sample], called on thread [thread]; [grab] takes the [mss] instance
    it is called on. *)
Definition sample (self : PixelSampler) (grab : nat -> Z -> Z -> option RGB)
    (tl : ThreadLocal) (thread : nat) : ThreadLocal * SampleOutcome :=
  let '(tl, handle) := _thread_local_mss tl thread in
  (tl, sample_from (grab handle) [] (_sample_points self)).

(** A sequence of [_thread_local_mss] calls, by calling thread. *)
Fixpoint thread_local_calls (tl : ThreadLocal) (threads : list nat)
    : ThreadLocal :=
  match threads with
  | [] => tl
  | thread :: rest => thread_local_calls (fst (_thread_local_mss tl thread)) rest
  end.

(** Every instance held was made by this sampler, no two threads hold
    the same one, and as many were made as there are threads holding
    one. *)
Definition handles_private (tl : ThreadLocal) : Prop :=
  (forall t h, sct tl !! t = Some h -> (h < instances tl)%nat)
  /\ (forall t1 t2 h,
         sct tl !! t1 = Some h -> sct tl !! t2 = Some h -> t1 = t2)
  /\ size (sct tl) = instances tl.

(** A point lies on the monitor. *)
Definition on_monitor (mleft mtop mwidth mheight : Z) (p : SamplePoint.t)
    : Prop :=
  mleft <= SamplePoint.x p < mleft + mwidth
  /\ mtop <= SamplePoint.y p < mtop + mheight.

(* ===================================================================== *)
(** ** Reading schedules and key logs *)
(* ===================================================================== *)

(** Total time slept in a list of actions, in seconds. *)
Definition slept (l : list Action) : Q :=
  foldr (fun a acc => match a with sleep s => (s + acc)%Q | _ => acc end) 0%Q l.

(** The key events of [n] taps of key [k]. *)
Fixpoint taps_of (k : Key) (n : nat) : list Action :=
  match n with
  | O => []
  | S n => press k :: release k :: taps_of k n
  end.

(** The polling thread carries, or the controller stores, only samples
    that satisfy [P]. *)
Definition poller_samples (P : list RGB -> Prop) (p : Poller) : Prop :=
  match p with
  | at_sample c | at_tap c | at_rebase c => P c
  | _ => True
  end.

Definition baseline_sample (P : list RGB -> Prop) (w : World) : Prop :=
  match _baseline (controller w) with
  | Some c => P c
  | None => True
  end.

(** Every sample the sampler hands out during the event satisfies [P]:
    the one of a press of the trigger button and the one of a polling
    step.  (The sampler is not called on other clicks.) *)
Definition event_samples (P : list RGB -> Prop) (e : Event) : Prop :=
  match e with
  | click Button.x2 true (Colours c) => P c
  | poll_sample _ (Colours c) => P c
  | _ => True
  end.

(** The event is not a click of a button other than the trigger. *)
Definition concerns_trigger (e : Event) : bool :=
  match e with
  | click button _ _ => Button.eqb button Button.x2
  | _ => true
  end.

(** The handle that [_monitor_thread] holds after the threads created so
    far. *)
Definition last_thread (ps : list Poller) : option nat :=
  match ps with
  | [] => None
  | _ :: rest => Some (length rest)
  end.

(** The event a polling thread takes next from where it stands, given
    what the sampler and the random generator would yield. *)
Definition next_event (t : nat) (p : Poller) (s : SampleOutcome)
    (u1 u2 : Q) : option Event :=
  match p with
  | at_check => Some (poll_check t)
  | at_sample _ => Some (poll_sample t s)
  | at_tap _ => Some (poll_tap t u1 u2)
  | at_rebase _ => Some (poll_rebase t)
  | at_sleep => Some (poll_sleep t)
  | finished | died => None
  end.

(** Thread [t] alone runs for up to [n] steps; [feed i] is what the
    sampler and the generator yield when [i] steps remain after the
    current one.  The thread stops early when it has left the loop. *)
Fixpoint poll_alone (n : nat) (t : nat)
    (feed : nat -> SampleOutcome * Q * Q) (w : World) : World :=
  match n with
  | O => w
  | S n =>
      match pollers w !! t with
      | Some p =>
          let '(s, u1, u2) := feed n in
          match next_event t p s u1 u2 with
          | Some e =>
              match step w e with
              | Some w' => poll_alone n t feed w'
              | None => w
              end
          | None => w
          end
      | None => w
      end
  end.

(** The number of steps a polling thread needs at most to leave the loop
    once monitoring is off. *)
Definition steps_to_exit (p : Poller) : nat :=
  match p with
  | at_sample _ => 5
  | at_tap _ => 4
  | at_rebase _ => 3
  | at_sleep => 2
  | at_check => 1
  | finished | died => 0
  end.

(** The calls of [self._sender.tap()] in a schedule. *)
Fixpoint taps_in (es : list Event) : nat :=
  match es with
  | [] => O
  | poll_tap _ _ _ :: es => S (taps_in es)
  | _ :: es => taps_in es
  end.

(** The polling thread is not on its way to a tap or to the write that
    follows it. *)
Definition not_tapping (p : Poller) : Prop :=
  match p with
  | at_tap _ | at_rebase _ => False
  | _ => True
  end.

(** The world of [watching] after the button has been let go: the
    thread is still about to take its sample. *)
Definition stopped_mid_cycle : World := _stop_monitoring watching.

(** The thread has taken its sample, tapped, written the baseline and
    gone to sleep; the button is let go and pressed again before it wakes
    up. *)
Definition rebased_then_restarted : list Event :=
  [ ButtonReleased;
    ButtonPressed (Colours steady);
    poll_sleep 0;
    poll_check 0 ].

(** The event writes neither the flag nor the baseline: it is not a click
    of the trigger button and not the second locked block of a polling
    thread. *)
Definition keeps_baseline (e : Event) : Prop :=
  match e with
  | click Button.x2 _ _ => False
  | poll_rebase _ => False
  | _ => True
  end.

(** World [v] is reached from [w] while thread [t] stands still: by steps
    of the listener and of the other threads only. *)
Definition undisturbed (t : nat) (w v : World) : Prop :=
  exists es : list Event,
    Forall (fun e => thread_of e <> Some t) es /\ run w es = Some v.

(** ... and, moreover, by steps that write neither flag nor baseline. *)
Definition unwritten (t : nat) (w v : World) : Prop :=
  exists es : list Event,
    Forall (fun e => thread_of e <> Some t /\ keeps_baseline e) es
    /\ run w es = Some v.

(* ===================================================================== *)
(** ** Properties of the change detector *)
(* ===================================================================== *)

Lemma filter_none {A : Type} (f : A -> bool) (l : list A) :
  (forall x, f x = false) -> List.filter f l = [].
Proof.
  intros Hf. induction l as [|x l IH]; simpl; [reflexivity|].
  rewrite Hf. exact IH.
Qed.

(** The generator expression over the zipped channels is the
    three-term Manhattan distance. *)
Lemma delta_manhattan (base cur : RGB) : delta base cur = manhattan base cur.
Proof.
  destruct base as [[rb gb] bb], cur as [[rc gc] bc].
  unfold delta, manhattan, sum; simpl. lia.
Qed.

Lemma delta_nonneg (base cur : RGB) : 0 <= delta base cur.
Proof.
  rewrite delta_manhattan.
  destruct base as [[rb gb] bb], cur as [[rc gc] bc]; simpl. lia.
Qed.

Lemma delta_same (c : RGB) : delta c c = 0.
Proof.
  rewrite delta_manhattan. destruct c as [[r g] b]; simpl.
  rewrite !Z.sub_diag. reflexivity.
Qed.

Lemma running_count_nil (tol : Z) : running_count tol [] = 0.
Proof. reflexivity. Qed.

Lemma running_count_cons (tol : Z) (base cur : RGB)
    (rest : list (RGB * RGB)) :
  running_count tol ((base, cur) :: rest) =
  (if delta base cur >? tol then 1 else 0) + running_count tol rest.
Proof.
  unfold running_count, pixel_changed; simpl.
  rewrite <- delta_manhattan.
  destruct (delta base cur >? tol); simpl length; lia.
Qed.

Lemma running_count_nonneg (tol : Z) (pairs : list (RGB * RGB)) :
  0 <= running_count tol pairs.
Proof. unfold running_count. lia. Qed.

Lemma running_count_app (tol : Z) (l1 l2 : list (RGB * RGB)) :
  running_count tol (l1 ++ l2) = running_count tol l1 + running_count tol l2.
Proof.
  unfold running_count. rewrite List.filter_app, length_app. lia.
Qed.

Section Detector.

Variable self : ChangeDetector.

Let tol := _tolerance self.
Let k := _minimum_changed_pixels self.

(** The loop answers [True] exactly when the count it started with,
    plus the changed pixels still to come, reaches the minimum. *)
Lemma has_changed_from_spec (pairs : list (RGB * RGB)) :
  forall changes : Z,
    changes < k ->
    has_changed_from self changes pairs = true <->
    k <= changes + running_count tol pairs.
Proof.
  induction pairs as [|[base cur] rest IH]; intros changes Hlt.
  - rewrite running_count_nil. simpl. split; [discriminate | lia].
  - rewrite running_count_cons. simpl. fold tol k.
    destruct (delta base cur >? tol) eqn:Hd.
    + destruct (changes + 1 >=? k) eqn:Hk.
      * pose proof (running_count_nonneg tol rest). split; [lia | reflexivity].
      * rewrite IH by lia. lia.
    + rewrite IH by lia. lia.
Qed.

(** The counting loop returns what the plain loop returns. *)
Lemma has_changed_examined_from_fst (pairs : list (RGB * RGB)) :
  forall changes : Z,
    fst (has_changed_examined_from self changes pairs) =
    has_changed_from self changes pairs.
Proof.
  induction pairs as [|[base cur] rest IH]; intros changes; simpl.
  - reflexivity.
  - destruct (delta base cur >? _tolerance self).
    + destruct (changes + 1 >=? _minimum_changed_pixels self).
      * reflexivity.
      * specialize (IH (changes + 1)).
        destruct (has_changed_examined_from self (changes + 1) rest).
        exact IH.
    + specialize (IH changes).
      destruct (has_changed_examined_from self changes rest).
      exact IH.
Qed.

(** It never takes more pairs than there are. *)
Lemma has_changed_examined_from_le (pairs : list (RGB * RGB)) :
  forall changes : Z,
    (snd (has_changed_examined_from self changes pairs) <= length pairs)%nat.
Proof.
  induction pairs as [|[base cur] rest IH]; intros changes; simpl.
  - lia.
  - destruct (delta base cur >? _tolerance self).
    + destruct (changes + 1 >=? _minimum_changed_pixels self).
      * simpl. lia.
      * specialize (IH (changes + 1)).
        destruct (has_changed_examined_from self (changes + 1) rest).
        simpl in *. lia.
    + specialize (IH changes).
      destruct (has_changed_examined_from self changes rest).
      simpl in *. lia.
Qed.

(** If the running count first reaches the minimum with pair [i], the
    loop stops there: it has taken [i + 1] pairs and answers [True]. *)
Lemma has_changed_examined_from_stop (pairs : list (RGB * RGB)) :
  forall (changes : Z) (i : nat),
    changes + running_count tol (take i pairs) < k ->
    k <= changes + running_count tol (take (S i) pairs) ->
    has_changed_examined_from self changes pairs = (true, S i).
Proof.
  induction pairs as [|[base cur] rest IH]; intros changes i Hlo Hhi.
  - rewrite take_nil in *. lia.
  - destruct i as [|i].
    + simpl take in *. rewrite running_count_cons in Hhi.
      change (take 0 rest) with (@nil (RGB * RGB)) in Hhi.
      rewrite !running_count_nil in *. simpl. fold tol k.
      destruct (delta base cur >? tol); cbv iota in Hhi; [|lia].
      destruct (changes + 1 >=? k) eqn:Hk; [reflexivity | lia].
    + change (take (S (S i)) ((base, cur) :: rest))
        with ((base, cur) :: take (S i) rest) in Hhi.
      change (take (S i) ((base, cur) :: rest))
        with ((base, cur) :: take i rest) in Hlo.
      rewrite running_count_cons in Hlo, Hhi.
      pose proof (running_count_nonneg tol (take i rest)).
      simpl. fold tol k.
      destruct (delta base cur >? tol); cbv iota in Hlo, Hhi.
      * destruct (changes + 1 >=? k) eqn:Hk; [lia|].
        rewrite (IH (changes + 1) i) by lia. reflexivity.
      * rewrite (IH changes i) by lia. reflexivity.
Qed.

(** Counting changed positions by index or along the zipped pairs
    gives the same number. *)
Lemma changed_indices_count (baseline : list RGB) :
  forall current : list RGB,
    Z.of_nat (length (changed_indices tol baseline current)) =
    running_count tol (zip baseline current).
Proof.
  unfold changed_indices, running_count.
  induction baseline as [|b baseline IH]; intros current.
  - reflexivity.
  - destruct current as [|c current].
    + rewrite filter_none; [reflexivity|].
      intros i. rewrite lookup_nil. destruct (_ !! i); reflexivity.
    + simpl length at 2. rewrite <- cons_seq, <- seq_shift.
      simpl List.filter at 1. rewrite List.filter_map_swap.
      specialize (IH current). simpl in IH |- *.
      destruct (pixel_changed tol b c); simpl length;
        rewrite ?length_map; lia.
Qed.

End Detector.

Lemma running_count_same (tol : Z) (A : list RGB) :
  0 <= tol -> running_count tol (zip A A) = 0.
Proof.
  intros Htol. induction A as [|c A IH].
  - reflexivity.
  - simpl zip_with. rewrite running_count_cons, delta_same, IH.
    destruct (0 >? tol) eqn:E; lia.
Qed.

Lemma zip_take_app {A B : Type} (n : nat) (l : list A) (k : list B)
    (l' : list A) (k' : list B) :
  (n <= length (zip l k))%nat ->
  zip (take n l ++ l') (take n k ++ k') = take n (zip l k) ++ zip l' k'.
Proof.
  intros Hn. rewrite length_zip_with in Hn.
  rewrite zip_with_app, zip_with_take; [reflexivity|].
  rewrite !length_take. lia.
Qed.

(** C2.  For baseline and current samples of one length, a tolerance of
    at least 0 and a minimum of at least 1 changed pixel, [has_changed]
    answers [True] exactly when the number of indices whose Manhattan
    distance exceeds the tolerance is at least the minimum; and a sample
    compared with itself never counts as changed. *)
Theorem has_changed_iff_changed_indices (self : ChangeDetector)
    (baseline current : list RGB) :
  length baseline = length current ->
  0 <= _tolerance self ->
  1 <= _minimum_changed_pixels self ->
  (has_changed self baseline current = true <->
   _minimum_changed_pixels self <=
   Z.of_nat (length (changed_indices (_tolerance self) baseline current)))
  /\ (forall A : list RGB, has_changed self A A = false).
Proof.
  intros _ Htol Hk. split.
  - unfold has_changed. rewrite has_changed_from_spec by lia.
    rewrite changed_indices_count. lia.
  - intros A. unfold has_changed.
    destruct (has_changed_from self 0 (zip A A)) eqn:E; [|reflexivity].
    apply has_changed_from_spec in E; [|lia].
    rewrite running_count_same in E by assumption. lia.
Qed.

Lemma has_changed_iff_changed_indices_witness :
  (has_changed default_detector
     [(10, 10, 10); (10, 10, 10); (10, 10, 10)]
     [(10, 10, 10); (200, 10, 10); (10, 10, 28)] = true <->
   1 <= Z.of_nat (length (changed_indices 18
     [(10, 10, 10); (10, 10, 10); (10, 10, 10)]
     [(10, 10, 10); (200, 10, 10); (10, 10, 28)])))
  /\ (forall A : list RGB, has_changed default_detector A A = false).
Proof.
  apply (has_changed_iff_changed_indices default_detector
           [(10, 10, 10); (10, 10, 10); (10, 10, 10)]
           [(10, 10, 10); (200, 10, 10); (10, 10, 28)]).
  - reflexivity.
  - simpl. lia.
  - simpl. lia.
Defined.

(** C7.  If the running count of pixels whose delta exceeds the tolerance
    reaches the minimum with the pair at index [i], then [has_changed]
    answers [True] having taken exactly the pairs at indices [0..i]: the
    loop has examined [i + 1] pairs, and whatever stands behind index [i]
    in either sample is never looked at. *)
Theorem has_changed_short_circuits (self : ChangeDetector)
    (baseline current : list RGB) (i : nat) :
  running_count (_tolerance self) (take i (zip baseline current))
    < _minimum_changed_pixels self ->
  _minimum_changed_pixels self
    <= running_count (_tolerance self) (take (S i) (zip baseline current)) ->
  has_changed self baseline current = true
  /\ has_changed_examined self baseline current = (true, S i)
  /\ forall later_b later_c : list RGB,
       has_changed_examined self (take (S i) baseline ++ later_b)
                                 (take (S i) current ++ later_c)
       = (true, S i).
Proof.
  intros Hlo Hhi.
  assert (Hi : (S i <= length (zip baseline current))%nat).
  { destruct (decide (S i <= length (zip baseline current))%nat) as [|Hn];
      [assumption|].
    rewrite (take_ge _ i), (take_ge _ (S i)) in * by lia. lia. }
  assert (Hex : has_changed_examined self baseline current = (true, S i)).
  { unfold has_changed_examined.
    apply has_changed_examined_from_stop; lia. }
  split; [|split].
  - unfold has_changed. rewrite <- has_changed_examined_from_fst.
    unfold has_changed_examined in Hex. rewrite Hex. reflexivity.
  - exact Hex.
  - intros later_b later_c. unfold has_changed_examined.
    rewrite zip_take_app by assumption.
    apply has_changed_examined_from_stop.
    + rewrite take_app_le by (rewrite length_take; lia).
      rewrite take_take, Nat.min_l by lia. lia.
    + rewrite take_app_le by (rewrite length_take; lia).
      rewrite take_take, Nat.min_id. lia.
Qed.

Lemma has_changed_short_circuits_witness :
  has_changed default_detector
    [(10, 10, 10); (10, 10, 10); (10, 10, 10)]
    [(10, 10, 10); (200, 10, 10); (90, 90, 90)] = true
  /\ has_changed_examined default_detector
       [(10, 10, 10); (10, 10, 10); (10, 10, 10)]
       [(10, 10, 10); (200, 10, 10); (90, 90, 90)] = (true, 2%nat)
  /\ forall later_b later_c : list RGB,
       has_changed_examined default_detector
         ([(10, 10, 10); (10, 10, 10)] ++ later_b)
         ([(10, 10, 10); (200, 10, 10)] ++ later_c) = (true, 2%nat).
Proof.
  apply (has_changed_short_circuits default_detector
           [(10, 10, 10); (10, 10, 10); (10, 10, 10)]
           [(10, 10, 10); (200, 10, 10); (90, 90, 90)] 1).
  - vm_compute. reflexivity.
  - vm_compute. discriminate.
Defined.

(** C9.  On samples of different lengths [has_changed] still returns an
    answer, and it is the answer for the first
    [min(len(baseline), len(current))] aligned pairs: the loop takes no
    more than that many pairs, and the rest of the longer sample has no
    influence. *)
Theorem has_changed_unequal_lengths (self : ChangeDetector)
    (baseline current : list RGB) :
  let m := Nat.min (length baseline) (length current) in
  (exists answer : bool,
      has_changed self baseline current = answer
      /\ has_changed self (take m baseline) (take m current) = answer)
  /\ (snd (has_changed_examined self baseline current) <= m)%nat.
Proof.
  intros m. split.
  - exists (has_changed self baseline current). split; [reflexivity|].
    unfold has_changed. rewrite <- zip_with_take.
    rewrite take_ge; [reflexivity|].
    rewrite length_zip_with. subst m. lia.
  - unfold has_changed_examined.
    pose proof (has_changed_examined_from_le self (zip baseline current) 0) as H.
    rewrite length_zip_with in H. exact H.
Qed.

(* ===================================================================== *)
(** ** Properties of float rounding *)
(* ===================================================================== *)

(** Write the powers of two in the goal and the hypotheses as numerals. *)
Ltac numerals :=
  repeat match goal with
  | |- context [Pos.pow 2 ?n] =>
      let v := eval vm_compute in (Pos.pow 2 n) in
      change (Pos.pow 2 n) with v in *
  | H : context [Pos.pow 2 ?n] |- _ =>
      let v := eval vm_compute in (Pos.pow 2 n) in
      change (Pos.pow 2 n) with v in *
  end.

Section Binary64.

Local Open Scope Q_scope.

(** *** Powers of two *)
Lemma pow2_pos (k : Z) : 0 < 2 ^ k.
Proof. apply Qpower_0_lt. reflexivity. Qed.

Lemma pow2_plus (a b : Z) : 2 ^ (a + b) == 2 ^ a * 2 ^ b.
Proof. apply Qpower_plus. discriminate. Qed.

Lemma pow2_le (a b : Z) : (a <= b)%Z -> 2 ^ a <= 2 ^ b.
Proof. intros H. apply Qpower_le_compat_l; [exact H|discriminate]. Qed.

Lemma pow2_lt_inv (a b : Z) : 2 ^ a < 2 ^ b -> (a < b)%Z.
Proof. intros H. apply (Qpower_lt_compat_l_inv 2); [exact H|reflexivity]. Qed.

Lemma pow2_Z (n : Z) : (0 <= n)%Z -> inject_Z (2 ^ n) == 2 ^ n.
Proof. intros H. apply (Zpower_Qpower 2 n H). Qed.

(** *** The nearest integer *)
Lemma round_half_even_cases (m : Q) :
  (round_half_even m = Qfloor m /\ m - inject_Z (Qfloor m) <= 1 # 2)
  \/ (round_half_even m = (Qfloor m + 1)%Z
      /\ (1 # 2) <= m - inject_Z (Qfloor m)).
Proof.
  unfold round_half_even.
  destruct (Qcompare_spec (m - inject_Z (Qfloor m)) (1 # 2)) as [H|H|H].
  - destruct (Z.even (Qfloor m)); [left|right]; split; try reflexivity;
      rewrite H; apply Qle_refl.
  - left. split; [reflexivity|]. apply Qlt_le_weak, H.
  - right. split; [reflexivity|]. apply Qlt_le_weak, H.
Qed.

Lemma round_half_even_error (m : Q) :
  m - (1 # 2) <= inject_Z (round_half_even m) <= m + (1 # 2).
Proof.
  pose proof (Qfloor_le m). pose proof (Qlt_floor m) as Hlt.
  rewrite inject_Z_plus in Hlt. change (inject_Z 1) with 1 in Hlt.
  destruct (round_half_even_cases m) as [[-> H1]|[-> H1]];
    rewrite ?inject_Z_plus; change (inject_Z 1) with 1; split; lra.
Qed.

Lemma round_half_even_mono (m m' : Q) :
  m <= m' -> (round_half_even m <= round_half_even m')%Z.
Proof.
  intros Hle. pose proof (Qfloor_resp_le _ _ Hle) as Hf.
  destruct (Z.eq_dec (Qfloor m) (Qfloor m')) as [E|E].
  - unfold round_half_even. rewrite <- E.
    destruct (Qcompare_spec (m - inject_Z (Qfloor m)) (1 # 2)) as [H|H|H];
      destruct (Qcompare_spec (m' - inject_Z (Qfloor m)) (1 # 2)) as [H'|H'|H'];
      destruct (Z.even (Qfloor m)); try lia; lra.
  - destruct (round_half_even_cases m) as [[-> _]|[-> _]];
      destruct (round_half_even_cases m') as [[-> _]|[-> _]]; lia.
Qed.

Lemma round_half_even_Z (z : Z) : round_half_even (inject_Z z) = z.
Proof.
  unfold round_half_even. rewrite Qfloor_Z.
  destruct (Qcompare_spec (inject_Z z - inject_Z z) (1 # 2)) as [H|H|H];
    try reflexivity; lra.
Qed.

(** *** The binade of a positive number *)
Lemma binade_spec (x : Q) :
  0 < x -> 2 ^ binade x <= x < 2 ^ (binade x + 1).
Proof.
  intros Hx. destruct x as [n d]. unfold binade. cbn [Qnum Qden].
  assert (Hn : (0 < n)%Z).
  { unfold Qlt in Hx. simpl in Hx. lia. }
  set (ln := Z.log2 n). set (ld := Z.log2 (Zpos d)).
  pose proof (Z.log2_nonneg n) as Hln0. fold ln in Hln0.
  pose proof (Z.log2_nonneg (Zpos d)) as Hld0. fold ld in Hld0.
  destruct (Z.log2_spec n Hn) as [Hn1 Hn2]. fold ln in Hn1, Hn2.
  destruct (Z.log2_spec (Zpos d) eq_refl) as [Hd1 Hd2]. fold ld in Hd1, Hd2.
  rewrite Zle_Qle, pow2_Z in Hn1, Hd1 by lia.
  replace (Z.succ ln) with (ln + 1)%Z in Hn2 by lia.
  replace (Z.succ ld) with (ld + 1)%Z in Hd2 by lia.
  rewrite Zlt_Qlt, pow2_Z in Hn2, Hd2 by lia.
  set (N := inject_Z n) in *. set (D := inject_Z (Zpos d)) in *.
  assert (HD : 0 < D) by reflexivity.
  assert (Hx' : n # d == N / D) by apply Qmake_Qdiv.
  pose proof (pow2_pos (ln - ld)) as Hk.
  pose proof (pow2_pos ld) as Hpld.
  assert (E1 : 2 ^ (ln + 1) == 2 ^ (ln - ld + 1) * 2 ^ ld).
  { rewrite <- pow2_plus. replace (ln - ld + 1 + ld)%Z with (ln + 1)%Z by lia.
    reflexivity. }
  assert (E2 : 2 ^ ln == 2 ^ (ln - ld - 1) * 2 ^ (ld + 1)).
  { rewrite <- pow2_plus. replace (ln - ld - 1 + (ld + 1))%Z with ln by lia.
    reflexivity. }
  assert (Hup : n # d < 2 ^ (ln - ld + 1)).
  { rewrite Hx'. apply Qlt_shift_div_r; [exact HD|].
    pose proof (pow2_pos (ln - ld + 1)). nra. }
  assert (Hlo : 2 ^ (ln - ld - 1) <= n # d).
  { rewrite Hx'. apply Qle_shift_div_l; [exact HD|].
    pose proof (pow2_pos (ln - ld - 1)). nra. }
  destruct (Qle_bool (2 ^ (ln - ld)) (n # d)) eqn:Hb.
  - apply Qle_bool_iff in Hb. split; assumption.
  - replace (ln - ld - 1 + 1)%Z with (ln - ld)%Z by lia.
    split; [exact Hlo|].
    destruct (Qlt_le_dec (n # d) (2 ^ (ln - ld))) as [H|H]; [exact H|].
    apply Qle_bool_iff in H. congruence.
Qed.

Lemma binade_mono (x y : Q) : 0 < x -> x <= y -> (binade x <= binade y)%Z.
Proof.
  intros Hx Hxy.
  destruct (binade_spec x Hx) as [H1 _].
  destruct (binade_spec y) as [_ H2]; [lra|].
  assert (H : 2 ^ binade x < 2 ^ (binade y + 1)) by lra.
  apply pow2_lt_inv in H. lia.
Qed.

Lemma binade_below (x : Q) (j : Z) : 0 < x -> x < 2 ^ j -> (binade x < j)%Z.
Proof.
  intros Hx Hj. destruct (binade_spec x Hx) as [H1 _].
  apply pow2_lt_inv. lra.
Qed.

(** *** Rounding *)
Lemma nearest_scaled (x : Q) (e : Z) :
  inject_Z (round_half_even (x * 2 ^ (52 - e))) * 2 ^ (e - 52)
  - x <= 2 ^ (e - 53)
  /\ x - inject_Z (round_half_even (x * 2 ^ (52 - e))) * 2 ^ (e - 52)
     <= 2 ^ (e - 53).
Proof.
  pose proof (round_half_even_error (x * 2 ^ (52 - e))) as [H1 H2].
  pose proof (pow2_pos (e - 52)) as Hp.
  assert (E : 2 ^ (52 - e) * 2 ^ (e - 52) == 1).
  { rewrite <- pow2_plus. replace (52 - e + (e - 52))%Z with 0%Z by lia.
    reflexivity. }
  assert (Eh : 2 ^ (e - 53) == (1 # 2) * 2 ^ (e - 52)).
  { replace (e - 53)%Z with (-1 + (e - 52))%Z by lia. rewrite pow2_plus.
    reflexivity. }
  rewrite Eh.
  set (r := inject_Z (round_half_even (x * 2 ^ (52 - e)))) in *.
  set (p := 2 ^ (e - 52)) in *. set (q := 2 ^ (52 - e)) in *.
  assert (Hxqp : x * q * p == x) by (rewrite <- Qmult_assoc, E; ring).
  assert (H3 : r * p <= (x * q + (1 # 2)) * p)
    by (apply Qmult_le_compat_r; lra).
  assert (H4 : (x * q - (1 # 2)) * p <= r * p)
    by (apply Qmult_le_compat_r; lra).
  split; lra.
Qed.

Lemma nearest_error (x : Q) :
  nearest x - x <= 2 ^ (Z.max (binade x) (-1022) - 53)
  /\ x - nearest x <= 2 ^ (Z.max (binade x) (-1022) - 53).
Proof. unfold nearest. apply nearest_scaled. Qed.

Lemma nearest_nonneg (x : Q) : 0 <= x -> 0 <= nearest x.
Proof.
  intros Hx. unfold nearest.
  set (e := Z.max (binade x) (-1022)).
  pose proof (pow2_pos (e - 52)). pose proof (pow2_pos (52 - e)).
  assert (H1 : 0 <= x * 2 ^ (52 - e)) by nra.
  apply round_half_even_mono in H1.
  change 0 with (inject_Z 0) in H1 at 1. rewrite round_half_even_Z in H1.
  rewrite Zle_Qle in H1. change (inject_Z 0) with 0 in H1.
  nra.
Qed.

Lemma nearest_upper (x : Q) :
  0 < x -> nearest x <= 2 ^ (Z.max (binade x) (-1022) + 1).
Proof.
  intros Hx. unfold nearest. set (e := Z.max (binade x) (-1022)).
  destruct (binade_spec x Hx) as [_ Hb].
  pose proof (pow2_pos (e - 52)) as Hp. pose proof (pow2_pos (52 - e)) as Hq.
  assert (Hm : x * 2 ^ (52 - e) <= inject_Z (2 ^ 53)).
  { rewrite pow2_Z by lia.
    assert (Hle : 2 ^ (binade x + 1) <= 2 ^ (e + 1)) by (apply pow2_le; lia).
    assert (E : 2 ^ 53 == 2 ^ (e + 1) * 2 ^ (52 - e)).
    { rewrite <- pow2_plus. replace (e + 1 + (52 - e))%Z with 53%Z by lia.
      reflexivity. }
    rewrite E. apply Qmult_le_compat_r; lra. }
  apply round_half_even_mono in Hm. rewrite round_half_even_Z in Hm.
  rewrite Zle_Qle, pow2_Z in Hm by lia.
  assert (E : 2 ^ (e + 1) == 2 ^ 53 * 2 ^ (e - 52)).
  { rewrite <- pow2_plus. replace (53 + (e - 52))%Z with (e + 1)%Z by lia.
    reflexivity. }
  rewrite E. apply Qmult_le_compat_r; lra.
Qed.

Lemma nearest_lower (x : Q) :
  0 < x -> (-1022 <= binade x)%Z -> 2 ^ binade x <= nearest x.
Proof.
  intros Hx He. unfold nearest. rewrite Z.max_l by lia.
  set (e := binade x).
  destruct (binade_spec x Hx) as [Hb _]. fold e in Hb.
  pose proof (pow2_pos (e - 52)) as Hp. pose proof (pow2_pos (52 - e)) as Hq.
  assert (Hm : inject_Z (2 ^ 52) <= x * 2 ^ (52 - e)).
  { rewrite pow2_Z by lia.
    assert (E : 2 ^ 52 == 2 ^ e * 2 ^ (52 - e)).
    { rewrite <- pow2_plus. replace (e + (52 - e))%Z with 52%Z by lia.
      reflexivity. }
    rewrite E. apply Qmult_le_compat_r; lra. }
  apply round_half_even_mono in Hm. rewrite round_half_even_Z in Hm.
  rewrite Zle_Qle, pow2_Z in Hm by lia.
  assert (E : 2 ^ e == 2 ^ 52 * 2 ^ (e - 52)).
  { rewrite <- pow2_plus. replace (52 + (e - 52))%Z with e by lia.
    reflexivity. }
  rewrite E. apply Qmult_le_compat_r; lra.
Qed.

Lemma nearest_mono (x y : Q) : 0 < x -> x <= y -> nearest x <= nearest y.
Proof.
  intros Hx Hxy. assert (Hy : 0 < y) by lra.
  pose proof (binade_mono x y Hx Hxy) as Hb.
  destruct (Z.eq_dec (Z.max (binade x) (-1022)) (Z.max (binade y) (-1022)))
    as [E|E].
  - unfold nearest. rewrite <- E. set (e := Z.max (binade x) (-1022)).
    pose proof (pow2_pos (e - 52)) as Hp. pose proof (pow2_pos (52 - e)) as Hq.
    assert (Hm : x * 2 ^ (52 - e) <= y * 2 ^ (52 - e))
      by (apply Qmult_le_compat_r; lra).
    apply round_half_even_mono in Hm. rewrite Zle_Qle in Hm.
    apply Qmult_le_compat_r; lra.
  - assert (Hlt : (Z.max (binade x) (-1022) + 1 <= binade y)%Z) by lia.
    pose proof (nearest_upper x Hx) as Hu.
    pose proof (nearest_lower y Hy ltac:(lia)) as Hl.
    pose proof (pow2_le _ _ Hlt). lra.
Qed.

Lemma Qnum_pos (x : Q) (p : positive) : Qnum x = Zpos p -> 0 < x.
Proof. intros H. unfold Qlt. simpl. lia. Qed.

Lemma Qnum_zero (x : Q) : Qnum x = 0%Z -> x == 0.
Proof. intros H. unfold Qeq. simpl. lia. Qed.

Lemma Qnum_neg (x : Q) (p : positive) : Qnum x = Zneg p -> x < 0.
Proof. intros H. unfold Qlt. simpl. lia. Qed.

Lemma binary64_nonneg (x : Q) : 0 <= x -> 0 <= binary64 x.
Proof.
  intros Hx. unfold binary64. destruct (Qnum x) as [|p|p] eqn:E.
  - lra.
  - rewrite Qred_correct. apply nearest_nonneg, Hx.
  - apply Qnum_neg in E. lra.
Qed.

(** Rounding keeps the order of non-negative numbers. *)
Lemma binary64_mono (x y : Q) :
  0 <= x -> x <= y -> binary64 x <= binary64 y.
Proof.
  intros Hx Hxy. unfold binary64 at 1.
  destruct (Qnum x) as [|p|p] eqn:E.
  - apply binary64_nonneg. lra.
  - apply Qnum_pos in E. rewrite Qred_correct. unfold binary64.
    destruct (Qnum y) as [|q|q] eqn:E'.
    + apply Qnum_zero in E'. lra.
    + rewrite Qred_correct. apply nearest_mono; assumption.
    + apply Qnum_neg in E'. lra.
  - apply Qnum_neg in E. lra.
Qed.

(** Below [2 ^ j], rounding moves a non-negative number by at most
    [2 ^ (j - 54)]. *)
Lemma binary64_error (x : Q) (j : Z) :
  (-1021 <= j)%Z -> 0 <= x -> x < 2 ^ j ->
  x - 2 ^ (j - 54) <= binary64 x <= x + 2 ^ (j - 54).
Proof.
  intros Hj Hx Hxj. unfold binary64.
  pose proof (pow2_pos (j - 54)) as Hp.
  destruct (Qnum x) as [|p|p] eqn:E.
  - apply Qnum_zero in E. lra.
  - apply Qnum_pos in E. rewrite Qred_correct.
    pose proof (binade_below x j E Hxj) as Hb.
    destruct (nearest_error x) as [H1 H2].
    assert (Hle : 2 ^ (Z.max (binade x) (-1022) - 53) <= 2 ^ (j - 54))
      by (apply pow2_le; lia).
    split; lra.
  - apply Qnum_neg in E. lra.
Qed.

(** *** [random.uniform] *)

Lemma unit_draw_range (u : Q) :
  unit_draw u -> 0 <= u <= 1 - (1 # 2 ^ 53).
Proof.
  intros (k & Hk & ->). unfold Qle, Qminus, Qplus, Qopp. numerals.
  change (2 ^ 53)%Z with 9007199254740992%Z in Hk. simpl. lia.
Qed.

(** A larger draw never gives a smaller result. *)
Lemma uniform_mono (a b u u' : Q) :
  0 <= a -> a <= b -> 0 <= u -> u <= u' ->
  uniform a b u <= uniform a b u'.
Proof.
  intros Ha Hab Hu Huu'. unfold uniform.
  assert (Hc : 0 <= binary64 (b - a)) by (apply binary64_nonneg; lra).
  assert (H0 : 0 <= binary64 (b - a) * u) by nra.
  assert (H1 : binary64 (b - a) * u <= binary64 (b - a) * u') by nra.
  pose proof (binary64_nonneg _ H0) as H2.
  pose proof (binary64_mono _ _ H0 H1) as H3.
  apply binary64_mono; lra.
Qed.

(** The pre-press delay: at least the float [0.03], at most [0.08], and
    within [2 ^ -55] of [0.03 + 0.05 * u]. *)
Lemma uniform_before (u : Q) :
  unit_draw u ->
  binary64 (3 # 100) <= uniform (binary64 (3 # 100)) (binary64 (8 # 100)) u
    <= 8 # 100
  /\ (3 # 100) + (5 # 100) * u - (1 # 2 ^ 55)
     <= uniform (binary64 (3 # 100)) (binary64 (8 # 100)) u
     <= (3 # 100) + (5 # 100) * u + (1 # 2 ^ 55).
Proof.
  intros Hu. apply unit_draw_range in Hu as [Hu0 Hu1].
  assert (Hlo : 0 <= binary64 (3 # 100)) by (vm_compute; discriminate).
  assert (Hlh : binary64 (3 # 100) <= binary64 (8 # 100))
    by (vm_compute; discriminate).
  split; [split|].
  - assert (E : uniform (binary64 (3 # 100)) (binary64 (8 # 100)) 0
                == binary64 (3 # 100)) by (vm_compute; reflexivity).
    rewrite <- E at 1. apply uniform_mono; lra.
  - assert (E : uniform (binary64 (3 # 100)) (binary64 (8 # 100))
                  (1 - (1 # 2 ^ 53)) <= 8 # 100)
      by (vm_compute; discriminate).
    apply Qle_trans with (2 := E). apply uniform_mono; lra.
  - unfold uniform.
    assert (Ec : binary64 (binary64 (8 # 100) - binary64 (3 # 100))
                 = 3602879701896397 # 2 ^ 56) by (vm_compute; reflexivity).
    assert (Ea : binary64 (3 # 100) = 1080863910568919 # 2 ^ 55)
      by (vm_compute; reflexivity).
    rewrite Ec, Ea.
    numerals.
    assert (Hp : 0 <= (3602879701896397 # 2 ^ 56) * u < 2 ^ (-4)).
    { change (2 ^ (-4)) with (1 # 16). numerals. split; lra. }
    destruct (binary64_error _ (-4) ltac:(lia) (proj1 Hp) (proj2 Hp))
      as [P1 P2].
    change (2 ^ (-4 - 54)) with (1 # 2 ^ 58) in P1, P2.
    assert (Hs : 0 <= (1080863910568919 # 2 ^ 55) + binary64 ((3602879701896397 # 2 ^ 56) * u) < 2 ^ (-3)).
    { change (2 ^ (-3)) with (1 # 8). numerals. split; lra. }
    destruct (binary64_error _ (-3) ltac:(lia) (proj1 Hs) (proj2 Hs))
      as [S1 S2].
    change (2 ^ (-3 - 54)) with (1 # 2 ^ 57) in S1, S2.
    numerals. split; lra.
Qed.

(** The hold delay: at least [0.01], at most [0.04], and within
    [2 ^ -55] of [0.01 + 0.03 * u]. *)
Lemma uniform_hold (u : Q) :
  unit_draw u ->
  1 # 100 <= uniform (binary64 (1 # 100)) (binary64 (4 # 100)) u <= 4 # 100
  /\ (1 # 100) + (3 # 100) * u - (1 # 2 ^ 55)
     <= uniform (binary64 (1 # 100)) (binary64 (4 # 100)) u
     <= (1 # 100) + (3 # 100) * u + (1 # 2 ^ 55).
Proof.
  intros Hu. apply unit_draw_range in Hu as [Hu0 Hu1].
  assert (Hlo : 0 <= binary64 (1 # 100)) by (vm_compute; discriminate).
  assert (Hlh : binary64 (1 # 100) <= binary64 (4 # 100))
    by (vm_compute; discriminate).
  split; [split|].
  - assert (E : 1 # 100
                <= uniform (binary64 (1 # 100)) (binary64 (4 # 100)) 0)
      by (vm_compute; discriminate).
    apply Qle_trans with (1 := E). apply uniform_mono; lra.
  - assert (E : uniform (binary64 (1 # 100)) (binary64 (4 # 100))
                  (1 - (1 # 2 ^ 53)) <= 4 # 100)
      by (vm_compute; discriminate).
    apply Qle_trans with (2 := E). apply uniform_mono; lra.
  - unfold uniform.
    assert (Ec : binary64 (binary64 (4 # 100) - binary64 (1 # 100))
                 = 1080863910568919 # 2 ^ 55) by (vm_compute; reflexivity).
    assert (Ea : binary64 (1 # 100) = 5764607523034235 # 2 ^ 59)
      by (vm_compute; reflexivity).
    rewrite Ec, Ea.
    numerals.
    assert (Hp : 0 <= (1080863910568919 # 2 ^ 55) * u < 2 ^ (-4)).
    { change (2 ^ (-4)) with (1 # 16). numerals. split; lra. }
    destruct (binary64_error _ (-4) ltac:(lia) (proj1 Hp) (proj2 Hp))
      as [P1 P2].
    change (2 ^ (-4 - 54)) with (1 # 2 ^ 58) in P1, P2.
    assert (Hs : 0 <= (5764607523034235 # 2 ^ 59) + binary64 ((1080863910568919 # 2 ^ 55) * u) < 2 ^ (-3)).
    { change (2 ^ (-3)) with (1 # 8). numerals. split; lra. }
    destruct (binary64_error _ (-3) ltac:(lia) (proj1 Hs) (proj2 Hs))
      as [S1 S2].
    change (2 ^ (-3 - 54)) with (1 # 2 ^ 57) in S1, S2.
    numerals. split; lra.
Qed.

End Binary64.

(* ===================================================================== *)
(** ** Properties of the key sender *)
(* ===================================================================== *)

Lemma half_is_draw : unit_draw (1 # 2).
Proof. exists (2 ^ 52). split; [lia|reflexivity]. Qed.

Lemma quarter_is_draw : unit_draw (1 # 4).
Proof. exists (2 ^ 51). split; [lia|reflexivity]. Qed.

Lemma zero_is_draw : unit_draw 0.
Proof. exists 0. split; [lia|reflexivity]. Qed.

(** C8, as the code has it.  One call of [tap] is: a sleep, one press of
    the sender's key, a sleep, one release of that key, in this order and
    nothing else.  The first sleep is [0.03 + (0.08 - 0.03) * u1] in
    float arithmetic: it lies between the float [0.03], which is a little
    less than 30 ms, and 80 ms, and within [2 ^ -55] s of
    [0.03 + 0.05 * u1].  The second is [0.01 + (0.04 - 0.01) * u2] in
    float arithmetic, from the second draw alone: it lies between 10 ms
    and 40 ms, within [2 ^ -55] s of [0.01 + 0.03 * u2]. *)
Theorem tap_press_release (self : NaturalKeySender) (u1 u2 : Q) :
  unit_draw u1 -> unit_draw u2 ->
  exists before hold : Q,
    tap self u1 u2 =
      [sleep before; press (_key self); sleep hold; release (_key self)]
    /\ key_events (tap self u1 u2) = [press (_key self); release (_key self)]
    /\ before = uniform (binary64 (3 # 100)) (binary64 (8 # 100)) u1
    /\ hold = uniform (binary64 (1 # 100)) (binary64 (4 # 100)) u2
    /\ (binary64 (3 # 100) <= before <= 8 # 100)%Q
    /\ (1 # 100 <= hold <= 4 # 100)%Q
    /\ ((3 # 100) + (5 # 100) * u1 - (1 # 2 ^ 55) <= before
        <= (3 # 100) + (5 # 100) * u1 + (1 # 2 ^ 55))%Q
    /\ ((1 # 100) + (3 # 100) * u2 - (1 # 2 ^ 55) <= hold
        <= (1 # 100) + (3 # 100) * u2 + (1 # 2 ^ 55))%Q.
Proof.
  intros Hu1 Hu2.
  destruct (uniform_before u1 Hu1) as [Hb1 Hb2].
  destruct (uniform_hold u2 Hu2) as [Hh1 Hh2].
  exists (uniform (binary64 (3 # 100)) (binary64 (8 # 100)) u1),
         (uniform (binary64 (1 # 100)) (binary64 (4 # 100)) u2).
  split; [reflexivity|]. split; [reflexivity|].
  split; [reflexivity|]. split; [reflexivity|].
  split; [exact Hb1|]. split; [exact Hh1|]. split; [exact Hb2|exact Hh2].
Qed.

Lemma tap_press_release_witness :
  exists before hold : Q,
    tap {| _key := from_char "x"%char |} (1 # 2) (1 # 4) =
      [sleep before; press (from_char "x"%char);
       sleep hold; release (from_char "x"%char)]
    /\ key_events (tap {| _key := from_char "x"%char |} (1 # 2) (1 # 4)) =
         [press (from_char "x"%char); release (from_char "x"%char)]
    /\ before = uniform (binary64 (3 # 100)) (binary64 (8 # 100)) (1 # 2)
    /\ hold = uniform (binary64 (1 # 100)) (binary64 (4 # 100)) (1 # 4)
    /\ (binary64 (3 # 100) <= before <= 8 # 100)%Q
    /\ (1 # 100 <= hold <= 4 # 100)%Q
    /\ ((3 # 100) + (5 # 100) * (1 # 2) - (1 # 2 ^ 55) <= before
        <= (3 # 100) + (5 # 100) * (1 # 2) + (1 # 2 ^ 55))%Q
    /\ ((1 # 100) + (3 # 100) * (1 # 4) - (1 # 2 ^ 55) <= hold
        <= (1 # 100) + (3 # 100) * (1 # 4) + (1 # 2 ^ 55))%Q.
Proof.
  apply (tap_press_release {| _key := from_char "x"%char |} (1 # 2) (1 # 4)).
  - exists (2 ^ 52). split; [lia | reflexivity].
  - exists (2 ^ 51). split; [lia | reflexivity].
Defined.

(** C8, as stated, fails by a rounding error: the float [0.03] is less
    than 3/100, and with a first draw of 0 the sleep before the press is
    that float, below 30 ms. *)
Lemma tap_before_below_30ms :
  unit_draw 0
  /\ exists (before : Q) (rest : list Action),
       tap {| _key := from_char "x"%char |} 0 0 = sleep before :: rest
       /\ (before < 3 # 100)%Q.
Proof.
  split; [exact zero_is_draw|].
  eexists. eexists. split; [reflexivity|]. vm_compute. reflexivity.
Qed.

(** At a draw of a quarter the delay is the float
    [0.042499999999999996], not 17/400. *)
Example uniform_quarter :
  uniform (binary64 (3 # 100)) (binary64 (8 # 100)) (1 # 4)
  = 3062447746611937 # 72057594037927936.
Proof. vm_compute. reflexivity. Qed.

(** The rounding on rationals and the floats of the kernel give the same
    delays: at the smallest and the largest draw, at draws in between and
    at draws with all 53 bits in use. *)
Module KernelFloatAgrees.
Import PrimFloat.

Example before_agrees :
  map (fun u => KernelFloat.float_value (KernelFloat.before u))
      [0; 0x1p-53; 0.25; 0.5; 0x1.23456789abcdep-3; 0x1.fedcba9876543p-1;
       0x1.fffffffffffffp-1]%float
  = map (fun u => Some (uniform (binary64 (3 # 100)) (binary64 (8 # 100)) u))
      [0; 1 # 2 ^ 53; 1 # 4; 1 # 2; 5124095576030430 # 2 ^ 55;
       8987183256397123 # 2 ^ 53; 9007199254740991 # 2 ^ 53]%Q.
Proof. vm_compute. reflexivity. Qed.

Example hold_agrees :
  map (fun u => KernelFloat.float_value (KernelFloat.hold u))
      [0; 0x1p-53; 0.25; 0.5; 0x1.23456789abcdep-3; 0x1.fedcba9876543p-1;
       0x1.fffffffffffffp-1]%float
  = map (fun u => Some (uniform (binary64 (1 # 100)) (binary64 (4 # 100)) u))
      [0; 1 # 2 ^ 53; 1 # 4; 1 # 2; 5124095576030430 # 2 ^ 55;
       8987183256397123 # 2 ^ 53; 9007199254740991 # 2 ^ 53]%Q.
Proof. vm_compute. reflexivity. Qed.

End KernelFloatAgrees.

(* ===================================================================== *)
(** ** Properties of the controller *)
(* ===================================================================== *)

Lemma run_app (es1 es2 : list Event) :
  forall w : World,
    run w (es1 ++ es2) =
    match run w es1 with
    | Some w' => run w' es2
    | None => None
    end.
Proof.
  induction es1 as [|e es1 IH]; intros w; simpl.
  - reflexivity.
  - destruct (step w e); [apply IH | reflexivity].
Qed.

Lemma reachable_run (c0 : ChangeClickController) (w w' : World)
    (es : list Event) :
  reachable c0 w -> run w es = Some w' -> reachable c0 w'.
Proof.
  intros [es0 H0] H. exists (es0 ++ es). rewrite run_app, H0. exact H.
Qed.

(** *** The listener callbacks *)

(** A click of any other button changes nothing. *)
Lemma handle_click_other_button (w : World) (button : Button.t)
    (pressed : bool) (s : SampleOutcome) :
  button <> Button.x2 ->
  _handle_click w button pressed s = (w, returned).
Proof.
  intros Hb. unfold _handle_click.
  destruct button; try reflexivity. contradiction.
Qed.

(** A press while monitoring returns at once: the sampler is not called
    and nothing is written. *)
Lemma press_while_monitoring (w : World) (s : SampleOutcome) :
  _monitoring (controller w) = true ->
  _begin_monitoring w s = (w, returned)
  /\ step w (ButtonPressed s) = Some w.
Proof.
  intros Hm. unfold step, _handle_click, _begin_monitoring; simpl.
  rewrite Hm. split; reflexivity.
Qed.

(** However many presses arrive while monitoring, the world stays as it
    is: same baseline, same thread handle, same threads, no key sent. *)
Lemma presses_while_monitoring (w : World) (ss : list SampleOutcome) :
  _monitoring (controller w) = true ->
  run w (map (fun s => ButtonPressed s) ss) = Some w.
Proof.
  intros Hm. induction ss as [|s ss IH]; simpl.
  - reflexivity.
  - unfold _handle_click, _begin_monitoring; simpl. rewrite Hm. exact IH.
Qed.

(** A release clears the flag and the baseline and touches nothing else. *)
Lemma release_clears (w : World) (s : SampleOutcome) :
  exists w',
    step w (click Button.x2 false s) = Some w'
    /\ _monitoring (controller w') = false
    /\ _baseline (controller w') = None
    /\ pollers w' = pollers w
    /\ keyboard w' = keyboard w.
Proof.
  exists (_stop_monitoring w). repeat split; reflexivity.
Qed.

(** *** Thread-local steps *)

Lemma with_poller_lookup (w : World) (t : nat) (p q : Poller) :
  pollers w !! t = Some q ->
  pollers (with_poller t p w) !! t = Some p.
Proof.
  intros H. simpl. apply list_lookup_insert_eq.
  apply lookup_lt_Some in H. exact H.
Qed.

Lemma with_poller_lookup_ne (w : World) (t t' : nat) (p : Poller) :
  t <> t' -> pollers (with_poller t p w) !! t' = pollers w !! t'.
Proof.
  intros H. simpl. apply list_lookup_insert_ne. exact H.
Qed.

(** An event of the listener or of another thread leaves the place of
    thread [t] as it is. *)
Lemma step_other_thread (w w' : World) (e : Event) (t : nat) (p : Poller) :
  thread_of e <> Some t ->
  step w e = Some w' ->
  pollers w !! t = Some p ->
  pollers w' !! t = Some p.
Proof.
  intros Hne Hstep Hp.
  destruct e as [button pressed s | t' | t' s | t' u1 u2 | t' | t'];
    simpl in Hne, Hstep.
  - injection Hstep as <-.
    unfold _handle_click, _begin_monitoring.
    destruct (negb (Button.eqb button Button.x2)); [exact Hp|].
    destruct pressed; [|exact Hp].
    destruct (_monitoring (controller w)); [exact Hp|].
    destruct s; [|exact Hp].
    simpl. rewrite lookup_app_l; [exact Hp|].
    apply lookup_lt_Some in Hp. exact Hp.
  - assert (t' <> t) by congruence.
    destruct (pollers w !! t') as [[]|]; try discriminate.
    destruct (_monitoring (controller w)), (_baseline (controller w));
      injection Hstep as <-; rewrite with_poller_lookup_ne; assumption.
  - assert (t' <> t) by congruence.
    destruct (pollers w !! t') as [[]|]; try discriminate.
    destruct s.
    + destruct (has_changed _ _ _);
        injection Hstep as <-; rewrite with_poller_lookup_ne; assumption.
    + injection Hstep as <-; rewrite with_poller_lookup_ne; assumption.
  - assert (t' <> t) by congruence.
    destruct (pollers w !! t') as [[]|]; try discriminate.
    injection Hstep as <-. simpl.
    rewrite list_lookup_insert_ne; assumption.
  - assert (t' <> t) by congruence.
    destruct (pollers w !! t') as [[]|]; try discriminate.
    injection Hstep as <-. rewrite with_poller_lookup_ne; assumption.
  - assert (t' <> t) by congruence.
    destruct (pollers w !! t') as [[]|]; try discriminate.
    injection Hstep as <-. rewrite with_poller_lookup_ne; assumption.
Qed.

(** A thread that has left [_watch_for_changes] takes no further step. *)
Lemma step_after_exit (w : World) (e : Event) (t : nat) (p : Poller) :
  thread_of e = Some t ->
  pollers w !! t = Some p ->
  alive p = false ->
  step w e = None.
Proof.
  intros He Hp Ha.
  destruct e; simpl in He; try discriminate;
    injection He as ->; simpl; rewrite Hp;
    destruct p; try discriminate; reflexivity.
Qed.

Lemma exited_forever (es : list Event) :
  forall (w w' : World) (t : nat) (p : Poller),
    pollers w !! t = Some p ->
    alive p = false ->
    run w es = Some w' ->
    pollers w' !! t = Some p.
Proof.
  induction es as [|e es IH]; intros w w' t p Hp Ha Hrun; simpl in Hrun.
  - injection Hrun as <-. exact Hp.
  - destruct (step w e) as [w1|] eqn:Hstep; [|discriminate].
    apply (IH w1 w' t p); [|assumption|assumption].
    destruct (decide (thread_of e = Some t)) as [He|He].
    + rewrite (step_after_exit w e t p He Hp Ha) in Hstep. discriminate.
    + exact (step_other_thread w w1 e t p He Hstep Hp).
Qed.

(** *** While monitoring is off *)

Ltac at_point H :=
  match type of H with
  | context [pollers ?w !! ?t] =>
      let E := fresh "Hat" in
      destruct (pollers w !! t) as [[]|] eqn:E; try discriminate H
  end.

(** Only a press of the trigger button switches monitoring on. *)
Lemma step_keeps_off (w w' : World) (e : Event) :
  _monitoring (controller w) = false ->
  no_press [e] = true ->
  step w e = Some w' ->
  _monitoring (controller w') = false.
Proof.
  intros Hoff Hnp Hstep.
  destruct e as [button pressed s | t | t s | t u1 u2 | t | t];
    simpl in Hstep.
  - injection Hstep as <-.
    destruct button, pressed; try discriminate Hnp; try exact Hoff;
      reflexivity.
  - at_point Hstep. rewrite Hoff in Hstep. injection Hstep as <-. exact Hoff.
  - at_point Hstep. destruct s; [destruct (has_changed _ _ _)|];
      injection Hstep as <-; exact Hoff.
  - at_point Hstep. injection Hstep as <-. exact Hoff.
  - at_point Hstep. injection Hstep as <-. exact Hoff.
  - at_point Hstep. injection Hstep as <-. exact Hoff.
Qed.

(** While monitoring is off, a step of the program uses up the pending
    comparison of a thread or leaves it with none. *)
Lemma step_spends_comparison (w w' : World) (e : Event) (t : nat) :
  _monitoring (controller w) = false ->
  no_press [e] = true ->
  step w e = Some w' ->
  (comparisons t [e] + pending_comparisons (pollers w' !! t)
   <= pending_comparisons (pollers w !! t))%nat.
Proof.
  intros Hoff Hnp Hstep.
  destruct e as [button pressed s | t' | t' s | t' u1 u2 | t' | t'];
    simpl in Hstep.
  - injection Hstep as <-.
    destruct button, pressed; try discriminate Hnp; simpl; lia.
  - at_point Hstep. rewrite Hoff in Hstep. injection Hstep as <-.
    destruct (decide (t' = t)) as [->|Hne].
    + rewrite (with_poller_lookup _ _ _ _ Hat), Hat. simpl. lia.
    + rewrite with_poller_lookup_ne by assumption. simpl. lia.
  - at_point Hstep.
    destruct (decide (t' = t)) as [->|Hne].
    + rewrite Hat.
      destruct s; [destruct (has_changed _ _ _)|];
        injection Hstep as <-;
        rewrite (with_poller_lookup _ _ _ _ Hat); simpl;
        rewrite ?Nat.eqb_refl; simpl; lia.
    + assert (Nat.eqb t t' = false) as Hneq
        by (apply Nat.eqb_neq; congruence).
      destruct s; [destruct (has_changed _ _ _)|];
        injection Hstep as <-;
        rewrite with_poller_lookup_ne by assumption; simpl;
        rewrite ?Hneq; lia.
  - at_point Hstep. injection Hstep as <-. simpl.
    destruct (decide (t' = t)) as [->|Hne].
    + rewrite list_lookup_insert_eq by (apply lookup_lt_Some in Hat; exact Hat).
      rewrite Hat. simpl. lia.
    + rewrite list_lookup_insert_ne by assumption. lia.
  - at_point Hstep. injection Hstep as <-.
    destruct (decide (t' = t)) as [->|Hne].
    + erewrite with_poller_lookup by exact Hat. simpl. rewrite Hat. simpl. lia.
    + rewrite with_poller_lookup_ne by assumption. simpl. lia.
  - at_point Hstep. injection Hstep as <-.
    destruct (decide (t' = t)) as [->|Hne].
    + rewrite (with_poller_lookup _ _ _ _ Hat), Hat. simpl. lia.
    + rewrite with_poller_lookup_ne by assumption. simpl. lia.
Qed.

Lemma comparisons_cons (t : nat) (e : Event) (es : list Event) :
  comparisons t (e :: es) = (comparisons t [e] + comparisons t es)%nat.
Proof.
  destruct e as [| |t' [|]| | |]; simpl; try reflexivity.
  destruct (Nat.eqb t t'); reflexivity.
Qed.

Lemma no_press_cons (e : Event) (es : list Event) :
  no_press (e :: es) = no_press [e] && no_press es.
Proof.
  destruct e as [[] [] ?| | | | |]; reflexivity.
Qed.

(** Once monitoring is off and as long as the trigger button is not
    pressed again, monitoring stays off and every polling thread makes at
    most one more comparison: the one it was about to make, if any. *)
Lemma stop_latency_without_press (es : list Event) :
  forall (w w' : World) (t : nat),
    _monitoring (controller w) = false ->
    no_press es = true ->
    run w es = Some w' ->
    _monitoring (controller w') = false
    /\ (comparisons t es <= pending_comparisons (pollers w !! t))%nat
    /\ (comparisons t es <= 1)%nat.
Proof.
  assert (Hone : forall p, (pending_comparisons p <= 1)%nat).
  { intros [[]|]; simpl; lia. }
  induction es as [|e es IH]; intros w w' t Hoff Hnp Hrun.
  - injection Hrun as <-. simpl. repeat split; [exact Hoff|lia|lia].
  - simpl in Hrun. destruct (step w e) as [w1|] eqn:Hstep; [|discriminate].
    rewrite no_press_cons in Hnp. apply andb_prop in Hnp as [Hnp1 Hnp2].
    pose proof (step_keeps_off w w1 e Hoff Hnp1 Hstep) as Hoff1.
    pose proof (step_spends_comparison w w1 e t Hoff Hnp1 Hstep) as Hspend.
    destruct (IH w1 w' t Hoff1 Hnp2 Hrun) as (Hoff' & Hle & _).
    rewrite comparisons_cons. specialize (Hone (pollers w !! t)).
    repeat split; [exact Hoff'|lia|lia].
Qed.

(** With monitoring off, a thread that reaches its state check leaves
    the loop. *)
Lemma check_while_off (w : World) (t : nat) :
  _monitoring (controller w) = false ->
  pollers w !! t = Some at_check ->
  step w (poll_check t) = Some (with_poller t finished w).
Proof.
  intros Hoff Hat. simpl. rewrite Hat, Hoff. reflexivity.
Qed.

(** *** The end-to-end scenarios *)

(** One pixel jumps by 190: exactly one tap, and the baseline becomes the
    new sample. *)
Example scenario_one_tap :
  run (start_world default_controller)
      (held_and_changed ++ [poll_tap 0 (1 # 2) (1 # 2); poll_rebase 0]) =
  Some {| controller :=
            set_monitor_thread (Some 0%nat)
              (set_monitoring true
                 (set_baseline (Some flashed) default_controller));
          pollers := [at_sleep];
          keyboard := tap (_sender default_controller) (1 # 2) (1 # 2) |}.
Proof. reflexivity. Qed.

(** One pixel moves by 10, below the tolerance of 18: no tap. *)
Example scenario_no_tap :
  run (start_world default_controller)
      [ButtonPressed (Colours steady); poll_check 0;
       poll_sample 0 (Colours flickered)] =
  Some {| controller := controller watching;
          pollers := [at_sleep];
          keyboard := [] |}.
Proof. reflexivity. Qed.

Example watching_reachable : reachable default_controller watching.
Proof.
  exists [ButtonPressed (Colours steady); poll_check 0]. reflexivity.
Qed.

(** *** Failures of the sampler *)

(** C1, as the code has it.  [_watch_for_changes] has no handler around
    [self._sampler.sample()]: when the call raises during an iteration,
    that iteration sends no key and leaves the controller (flag, baseline
    and thread handle) and the other threads as they are, and the
    exception leaves the function, so the polling thread ends there and
    takes no further step in any schedule. *)
Theorem capture_error_ends_polling (w : World) (t : nat)
    (baseline : list RGB) :
  pollers w !! t = Some (at_sample baseline) ->
  exists w',
    step w (poll_sample t CaptureError) = Some w'
    /\ keyboard w' = keyboard w
    /\ controller w' = controller w
    /\ pollers w' !! t = Some died
    /\ (forall t', t' <> t -> pollers w' !! t' = pollers w !! t')
    /\ (forall e, thread_of e = Some t -> step w' e = None)
    /\ (forall es w'', run w' es = Some w'' -> pollers w'' !! t = Some died).
Proof.
  intros Hat. exists (with_poller t died w).
  assert (Hdied : pollers (with_poller t died w) !! t = Some died)
    by exact (with_poller_lookup w t died _ Hat).
  repeat split.
  - simpl. rewrite Hat. reflexivity.
  - exact Hdied.
  - intros t' Hne. apply with_poller_lookup_ne. congruence.
  - intros e He. exact (step_after_exit _ e t died He Hdied eq_refl).
  - intros es w'' Hrun.
    exact (exited_forever es _ w'' t died Hdied eq_refl Hrun).
Qed.

Lemma capture_error_ends_polling_witness :
  exists w',
    step watching (poll_sample 0 CaptureError) = Some w'
    /\ keyboard w' = keyboard watching
    /\ controller w' = controller watching
    /\ pollers w' !! 0%nat = Some died
    /\ (forall t', t' <> 0%nat -> pollers w' !! t' = pollers watching !! t')
    /\ (forall e, thread_of e = Some 0%nat -> step w' e = None)
    /\ (forall es w'', run w' es = Some w'' ->
                       pollers w'' !! 0%nat = Some died).
Proof.
  apply (capture_error_ends_polling watching 0 steady). reflexivity.
Defined.

(** C1, as stated, fails: with the button held and the polling thread
    about to sample, a sample that raises does not leave the thread in the
    loop. *)
Lemma capture_error_not_tolerated :
  exists w,
    run (start_world default_controller)
        [ButtonPressed (Colours steady); poll_check 0] = Some w
    /\ ~ (exists w' p,
             step w (poll_sample 0 CaptureError) = Some w'
             /\ keyboard w' = keyboard w
             /\ _baseline (controller w') = _baseline (controller w)
             /\ pollers w' !! 0%nat = Some p
             /\ alive p = true).
Proof.
  exists watching. split; [reflexivity|].
  intros (w' & p & Hstep & _ & _ & Hp & Ha).
  simpl in Hstep. injection Hstep as <-.
  simpl in Hp. injection Hp as <-. discriminate Ha.
Qed.

(** C10.  If the sample taken by a press of the trigger button raises
    while the controller is not monitoring, [_begin_monitoring] leaves
    everything as it found it: the flag stays off, the baseline and the
    thread handle keep their values ([None] when they were [None]), no
    thread is created, and the exception leaves the callback. *)
Theorem failed_start_is_atomic (w : World) :
  _monitoring (controller w) = false ->
  _begin_monitoring w CaptureError = (w, raised)
  /\ _handle_click w Button.x2 true CaptureError = (w, raised)
  /\ step w (ButtonPressed CaptureError) = Some w
  /\ forall w', step w (ButtonPressed CaptureError) = Some w' ->
       _monitoring (controller w') = false
       /\ _baseline (controller w') = _baseline (controller w)
       /\ (_baseline (controller w) = None ->
           _baseline (controller w') = None)
       /\ _monitor_thread (controller w') = _monitor_thread (controller w)
       /\ pollers w' = pollers w
       /\ polling_tasks w' = polling_tasks w.
Proof.
  intros Hoff.
  assert (H : _begin_monitoring w CaptureError = (w, raised)).
  { unfold _begin_monitoring. rewrite Hoff. reflexivity. }
  assert (Hclick : _handle_click w Button.x2 true CaptureError = (w, raised)).
  { unfold _handle_click. simpl. exact H. }
  assert (Hstep : step w (ButtonPressed CaptureError) = Some w).
  { simpl. rewrite Hclick. reflexivity. }
  split; [exact H|]. split; [exact Hclick|]. split; [exact Hstep|].
  intros w' Hw'. rewrite Hstep in Hw'. injection Hw' as <-.
  repeat split; [exact Hoff | intros Hnone; exact Hnone].
Qed.

Lemma failed_start_is_atomic_witness :
  _begin_monitoring (start_world default_controller) CaptureError
    = (start_world default_controller, raised)
  /\ _handle_click (start_world default_controller) Button.x2 true CaptureError
     = (start_world default_controller, raised)
  /\ step (start_world default_controller) (ButtonPressed CaptureError)
     = Some (start_world default_controller)
  /\ forall w',
       step (start_world default_controller) (ButtonPressed CaptureError)
         = Some w' ->
       _monitoring (controller w') = false
       /\ _baseline (controller w')
          = _baseline (controller (start_world default_controller))
       /\ (_baseline (controller (start_world default_controller)) = None ->
           _baseline (controller w') = None)
       /\ _monitor_thread (controller w')
          = _monitor_thread (controller (start_world default_controller))
       /\ pollers w' = pollers (start_world default_controller)
       /\ polling_tasks w' = polling_tasks (start_world default_controller).
Proof.
  apply (failed_start_is_atomic (start_world default_controller)).
  reflexivity.
Defined.

(** *** Rebasing *)

(** When the comparison of an iteration answers [True] and the thread
    then takes its next five steps with nothing in between: it first
    sends exactly one tap, with the baseline still as it was, and then
    writes the sample of this very iteration as the new baseline; with
    monitoring on, the snapshot it takes at its next state check is that
    sample. *)
Theorem rebase_on_change (w : World) (t : nat) (baseline current : list RGB)
    (u1 u2 : Q) :
  pollers w !! t = Some (at_sample baseline) ->
  has_changed (_detector (controller w)) baseline current = true ->
  exists w1 w2 w3 : World,
    step w (poll_sample t (Colours current)) = Some w1
    /\ keyboard w1 = keyboard w
    /\ controller w1 = controller w
    /\ step w1 (poll_tap t u1 u2) = Some w2
    /\ keyboard w2 = keyboard w ++ tap (_sender (controller w)) u1 u2
    /\ controller w2 = controller w
    /\ step w2 (poll_rebase t) = Some w3
    /\ keyboard w3 = keyboard w2
    /\ _baseline (controller w3) = Some current
    /\ _monitoring (controller w3) = _monitoring (controller w)
    /\ (_monitoring (controller w) = true ->
        exists w4 w5 : World,
          step w3 (poll_sleep t) = Some w4
          /\ step w4 (poll_check t) = Some w5
          /\ pollers w5 !! t = Some (at_sample current)
          /\ keyboard w5 = keyboard w2).
Proof.
  intros Hat Hchanged.
  pose proof (lookup_lt_Some _ _ _ Hat) as Hlt.
  set (w1 := with_poller t (at_tap current) w).
  set (w2 := {| controller := controller w;
                pollers := <[t := at_rebase current]> (pollers w1);
                keyboard := keyboard w ++ tap (_sender (controller w)) u1 u2 |}).
  set (w3 := with_poller t at_sleep
               (with_controller
                  (set_baseline (Some current) (controller w)) w2)).
  assert (H1 : pollers w1 !! t = Some (at_tap current))
    by exact (with_poller_lookup w t _ _ Hat).
  assert (H2 : pollers w2 !! t = Some (at_rebase current)).
  { simpl. apply list_lookup_insert_eq. rewrite length_insert. exact Hlt. }
  assert (H3 : pollers w3 !! t = Some at_sleep).
  { simpl. apply list_lookup_insert_eq. rewrite !length_insert. exact Hlt. }
  exists w1, w2, w3. repeat split.
  - simpl. rewrite Hat, Hchanged. reflexivity.
  - unfold step. rewrite H1. reflexivity.
  - unfold step. rewrite H2. reflexivity.
  - intros Hon.
    set (w4 := with_poller t at_check w3).
    assert (H4 : pollers w4 !! t = Some at_check)
      by exact (with_poller_lookup w3 t _ _ H3).
    exists w4, (with_poller t (at_sample current) w4). repeat split.
    + unfold step. rewrite H3. reflexivity.
    + unfold step. rewrite H4. simpl. rewrite Hon. reflexivity.
    + exact (with_poller_lookup w4 t _ _ H4).
Qed.

Lemma rebase_on_change_witness :
  exists w1 w2 w3 : World,
    step watching (poll_sample 0 (Colours flashed)) = Some w1
    /\ keyboard w1 = keyboard watching
    /\ controller w1 = controller watching
    /\ step w1 (poll_tap 0 (1 # 2) (1 # 3)) = Some w2
    /\ keyboard w2 =
       keyboard watching ++ tap (_sender (controller watching)) (1 # 2) (1 # 3)
    /\ controller w2 = controller watching
    /\ step w2 (poll_rebase 0) = Some w3
    /\ keyboard w3 = keyboard w2
    /\ _baseline (controller w3) = Some flashed
    /\ _monitoring (controller w3) = _monitoring (controller watching)
    /\ (_monitoring (controller watching) = true ->
        exists w4 w5 : World,
          step w3 (poll_sleep 0) = Some w4
          /\ step w4 (poll_check 0) = Some w5
          /\ pollers w5 !! 0%nat = Some (at_sample flashed)
          /\ keyboard w5 = keyboard w2).
Proof.
  apply (rebase_on_change watching 0 steady flashed (1 # 2) (1 # 3)).
  - reflexivity.
  - vm_compute. reflexivity.
Defined.

(** The second locked block writes whatever sample the thread carries,
    whether or not the controller is still monitoring. *)
Lemma rebase_writes_sample (w : World) (t : nat) (current : list RGB) :
  pollers w !! t = Some (at_rebase current) ->
  exists w' : World,
    step w (poll_rebase t) = Some w'
    /\ _baseline (controller w') = Some current
    /\ _monitoring (controller w') = _monitoring (controller w)
    /\ pollers w' !! t = Some at_sleep.
Proof.
  intros Hat. eexists. unfold step. rewrite Hat.
  split; [reflexivity|]. split; [reflexivity|]. split; [reflexivity|].
  simpl. apply list_lookup_insert_eq. apply lookup_lt_Some in Hat. exact Hat.
Qed.

(** *** Races between the listener and the polling threads *)

(** C5 fails on the code.  The second locked block of the loop writes the
    baseline without looking at the flag: when the button is released
    between the comparison and that write, the controller ends up not
    monitoring with a baseline that is not [None]. *)
Theorem baseline_reinstated_after_release :
  exists w : World,
    run (start_world default_controller) released_during_tap = Some w
    /\ reachable default_controller w
    /\ _monitoring (controller w) = false
    /\ _baseline (controller w) = Some flashed
    /\ ~ (forall w' : World,
            reachable default_controller w' ->
            _monitoring (controller w') = false ->
            _baseline (controller w') = None).
Proof.
  assert (Hrun : run (start_world default_controller) released_during_tap =
                 Some {| controller :=
                           set_monitor_thread (Some 0%nat)
                             (set_monitoring false
                                (set_baseline (Some flashed)
                                   default_controller));
                         pollers := [at_sleep];
                         keyboard :=
                           tap (_sender default_controller) (1 # 2) (1 # 2) |})
    by reflexivity.
  eexists. split; [exact Hrun|].
  assert (Hreach : reachable default_controller
            {| controller :=
                 set_monitor_thread (Some 0%nat)
                   (set_monitoring false
                      (set_baseline (Some flashed) default_controller));
               pollers := [at_sleep];
               keyboard := tap (_sender default_controller) (1 # 2) (1 # 2) |})
    by (exists released_during_tap; exact Hrun).
  split; [exact Hreach|]. split; [reflexivity|]. split; [reflexivity|].
  intros Hinv. specialize (Hinv _ Hreach eq_refl). discriminate Hinv.
Qed.

(** C3 fails on the code.  A press while monitoring is a no-op (see
    [press_while_monitoring]), but a release followed by a press before
    the first thread has come back to its state check starts a second
    thread while the first is still there; both pass their check and
    poll side by side. *)
Theorem two_polling_tasks :
  exists w : World,
    run (start_world default_controller) restarted_early = Some w
    /\ pollers w = [at_sample steady; at_sample steady]
    /\ polling_tasks w = 2%nat
    /\ ~ (forall w' : World,
            reachable default_controller w' -> (polling_tasks w' <= 1)%nat).
Proof.
  assert (Hrun : run (start_world default_controller) restarted_early =
                 Some {| controller :=
                           set_monitor_thread (Some 1%nat)
                             (set_monitoring true
                                (set_baseline (Some steady)
                                   default_controller));
                         pollers := [at_sample steady; at_sample steady];
                         keyboard := [] |})
    by reflexivity.
  eexists. split; [exact Hrun|]. split; [reflexivity|].
  split; [reflexivity|].
  intros Hinv.
  assert (Hreach : reachable default_controller
            {| controller :=
                 set_monitor_thread (Some 1%nat)
                   (set_monitoring true
                      (set_baseline (Some steady) default_controller));
               pollers := [at_sample steady; at_sample steady];
               keyboard := [] |})
    by (exists restarted_early; exact Hrun).
  specialize (Hinv _ Hreach). vm_compute in Hinv. lia.
Qed.

(** C6 fails on the code.  The flag is the only thing the loop looks at:
    when the button is pressed again before the thread of the session
    that was stopped reaches its state check, that thread finds the flag
    set, stays in the loop and goes on comparing (twice in the schedule
    below), for as long as the button is held. *)
Theorem stale_loop_keeps_polling :
  exists w_stop w : World,
    run (start_world default_controller) held_then_released = Some w_stop
    /\ _monitoring (controller w_stop) = false
    /\ _baseline (controller w_stop) = None
    /\ pollers w_stop !! 0%nat = Some at_sleep
    /\ run w_stop pressed_again = Some w
    /\ comparisons 0 pressed_again = 2%nat
    /\ pollers w !! 0%nat = Some at_sleep.
Proof.
  exists {| controller :=
              set_monitor_thread (Some 0%nat)
                (set_monitoring false
                   (set_baseline None default_controller));
            pollers := [at_sleep];
            keyboard := [] |}.
  exists {| controller :=
              set_monitor_thread (Some 1%nat)
                (set_monitoring true
                   (set_baseline (Some steady) default_controller));
            pollers := [at_sleep; at_check];
            keyboard := [] |}.
  repeat split; reflexivity.
Qed.

(* ===================================================================== *)
(** ** Further properties of the change detector *)
(* ===================================================================== *)

Lemma delta_sym (base cur : RGB) : delta base cur = delta cur base.
Proof.
  rewrite !delta_manhattan.
  destruct base as [[rb gb] bb], cur as [[rc gc] bc]; simpl. lia.
Qed.

Lemma delta_zero_iff (base cur : RGB) : delta base cur = 0 <-> base = cur.
Proof.
  rewrite delta_manhattan.
  destruct base as [[rb gb] bb], cur as [[rc gc] bc]; simpl. split.
  - intros H. assert (rb = rc /\ gb = gc /\ bb = bc) as (-> & -> & ->) by lia.
    reflexivity.
  - intros [= -> -> ->]. lia.
Qed.

Lemma has_changed_from_sym (self : ChangeDetector) (baseline : list RGB) :
  forall (current : list RGB) (changes : Z),
    has_changed_from self changes (zip baseline current) =
    has_changed_from self changes (zip current baseline).
Proof.
  induction baseline as [|b baseline IH]; intros [|c current] changes;
    try reflexivity.
  simpl. rewrite (delta_sym c b), !IH. reflexivity.
Qed.

(** The comparison does not depend on which sample is called the
    baseline: the distance of a pixel pair is symmetric. *)
Theorem has_changed_symmetric (self : ChangeDetector)
    (baseline current : list RGB) :
  has_changed self baseline current = has_changed self current baseline.
Proof. unfold has_changed. apply has_changed_from_sym. Qed.

(** When the count that the loop holds is within one of the minimum, the
    first changed pixel ends the loop. *)
Lemma has_changed_from_low_minimum (self : ChangeDetector)
    (pairs : list (RGB * RGB)) (changes : Z) :
  _minimum_changed_pixels self <= changes + 1 ->
  has_changed_from self changes pairs = true <->
  1 <= running_count (_tolerance self) pairs.
Proof.
  intros Hk. induction pairs as [|[base cur] rest IH].
  - rewrite running_count_nil. simpl. split; [discriminate | lia].
  - rewrite running_count_cons. simpl.
    pose proof (running_count_nonneg (_tolerance self) rest).
    destruct (delta base cur >? _tolerance self).
    + destruct (changes + 1 >=? _minimum_changed_pixels self) eqn:E; [|lia].
      split; [lia | reflexivity].
    + rewrite IH. lia.
Qed.

(** A minimum of 1, of 0 or below 0 all mean the same: the answer is
    [True] exactly when at least one aligned pixel pair exceeds the
    tolerance.  A minimum of 0 does not make every comparison a change:
    the count is only tested after a pixel has been counted. *)
Theorem has_changed_minimum_at_most_one (self : ChangeDetector)
    (baseline current : list RGB) :
  _minimum_changed_pixels self <= 1 ->
  has_changed self baseline current = true <->
  changed_indices (_tolerance self) baseline current <> [].
Proof.
  intros Hk. unfold has_changed.
  rewrite has_changed_from_low_minimum by lia.
  rewrite <- changed_indices_count.
  destruct (changed_indices (_tolerance self) baseline current); simpl length.
  - split; [lia | congruence].
  - split; [discriminate | lia].
Qed.

Lemma has_changed_minimum_at_most_one_witness :
  has_changed {| _tolerance := 18; _minimum_changed_pixels := 0 |}
    [(10, 10, 10); (10, 10, 10)] [(10, 10, 10); (10, 10, 10)] = true <->
  changed_indices 18
    [(10, 10, 10); (10, 10, 10)] [(10, 10, 10); (10, 10, 10)] <> [].
Proof.
  apply (has_changed_minimum_at_most_one
           {| _tolerance := 18; _minimum_changed_pixels := 0 |}
           [(10, 10, 10); (10, 10, 10)] [(10, 10, 10); (10, 10, 10)]).
  simpl. lia.
Defined.

Lemma running_count_negative_tolerance (tol : Z) (pairs : list (RGB * RGB)) :
  tol < 0 -> running_count tol pairs = Z.of_nat (length pairs).
Proof.
  intros Htol. induction pairs as [|[base cur] rest IH].
  - reflexivity.
  - rewrite running_count_cons, IH. pose proof (delta_nonneg base cur).
    destruct (delta base cur >? tol) eqn:E; simpl length; lia.
Qed.

(** With a tolerance below 0 every aligned pair counts as changed, equal
    colours included: the answer only depends on how many pairs there
    are. *)
Theorem has_changed_negative_tolerance (self : ChangeDetector)
    (baseline current : list RGB) :
  _tolerance self < 0 ->
  1 <= _minimum_changed_pixels self ->
  has_changed self baseline current = true <->
  _minimum_changed_pixels self
    <= Z.of_nat (Nat.min (length baseline) (length current)).
Proof.
  intros Htol Hk. unfold has_changed.
  rewrite has_changed_from_spec by lia.
  rewrite running_count_negative_tolerance by assumption.
  rewrite length_zip_with. lia.
Qed.

Lemma has_changed_negative_tolerance_witness :
  has_changed {| _tolerance := -1; _minimum_changed_pixels := 2 |}
    [(10, 10, 10); (10, 10, 10)] [(10, 10, 10); (10, 10, 10)] = true <->
  2 <= Z.of_nat (Nat.min (length [(10, 10, 10); (10, 10, 10)])
                         (length [(10, 10, 10); (10, 10, 10)])).
Proof.
  apply (has_changed_negative_tolerance
           {| _tolerance := -1; _minimum_changed_pixels := 2 |}
           [(10, 10, 10); (10, 10, 10)] [(10, 10, 10); (10, 10, 10)]).
  - simpl. lia.
  - simpl. lia.
Defined.

Lemma running_count_antitone (tol tol' : Z) (pairs : list (RGB * RGB)) :
  tol <= tol' -> running_count tol' pairs <= running_count tol pairs.
Proof.
  intros Hle. induction pairs as [|[base cur] rest IH].
  - reflexivity.
  - rewrite !running_count_cons.
    destruct (delta base cur >? tol') eqn:E', (delta base cur >? tol) eqn:E;
      lia.
Qed.

(** A stricter detector never reports more: what a detector with a higher
    tolerance and a higher minimum reports as changed, one with a lower
    tolerance and a lower minimum (at least 1) reports as changed too. *)
Theorem has_changed_monotone (loose strict : ChangeDetector)
    (baseline current : list RGB) :
  _tolerance loose <= _tolerance strict ->
  1 <= _minimum_changed_pixels loose ->
  _minimum_changed_pixels loose <= _minimum_changed_pixels strict ->
  has_changed strict baseline current = true ->
  has_changed loose baseline current = true.
Proof.
  intros Htol Hk Hkk. unfold has_changed.
  rewrite !has_changed_from_spec by lia.
  pose proof (running_count_antitone _ _ (zip baseline current) Htol).
  lia.
Qed.

Lemma has_changed_monotone_witness :
  has_changed {| _tolerance := 5; _minimum_changed_pixels := 1 |}
    [(10, 10, 10); (10, 10, 10)] [(30, 10, 10); (10, 40, 10)] = true.
Proof.
  apply (has_changed_monotone
           {| _tolerance := 5; _minimum_changed_pixels := 1 |}
           {| _tolerance := 18; _minimum_changed_pixels := 2 |}
           [(10, 10, 10); (10, 10, 10)] [(30, 10, 10); (10, 40, 10)]).
  - simpl. lia.
  - simpl. lia.
  - simpl. lia.
  - vm_compute. reflexivity.
Defined.

(** With tolerance 0 and minimum 1 the detector is an inequality test:
    two samples of one length are reported unchanged exactly when they
    are equal. *)
Theorem has_changed_exact (self : ChangeDetector)
    (baseline current : list RGB) :
  _tolerance self = 0 ->
  _minimum_changed_pixels self = 1 ->
  length baseline = length current ->
  has_changed self baseline current = false <-> baseline = current.
Proof.
  intros Htol Hk. unfold has_changed. revert current.
  induction baseline as [|b baseline IH]; intros [|c current] Hlen;
    try discriminate Hlen.
  - split; reflexivity.
  - simpl. rewrite Htol, Hk.
    pose proof (delta_nonneg b c). pose proof (delta_zero_iff b c) as Hz.
    destruct (delta b c >? 0) eqn:E.
    + simpl. split; [discriminate|].
      intros [= -> ->]. rewrite delta_same in E. discriminate E.
    + injection Hlen as Hlen. rewrite (IH current Hlen).
      assert (b = c) as -> by (apply Hz; lia).
      split; [intros ->; reflexivity | intros [= ->]; reflexivity].
Qed.

Lemma has_changed_exact_witness :
  has_changed {| _tolerance := 0; _minimum_changed_pixels := 1 |}
    [(10, 10, 10); (10, 10, 10)] [(10, 10, 10); (10, 10, 11)] = false <->
  [(10, 10, 10); (10, 10, 10)] = [(10, 10, 10); (10, 10, 11)].
Proof.
  apply (has_changed_exact {| _tolerance := 0; _minimum_changed_pixels := 1 |}
           [(10, 10, 10); (10, 10, 10)] [(10, 10, 10); (10, 10, 11)]).
  - reflexivity.
  - reflexivity.
  - reflexivity.
Defined.

(* ===================================================================== *)
(** ** Properties of the pixel sampler *)
(* ===================================================================== *)

Lemma offsets_or_default_nonempty (cluster_offsets : option (list (Z * Z))) :
  offsets_or_default cluster_offsets <> [].
Proof. destruct cluster_offsets as [[|o os]|]; discriminate. Qed.

Lemma compute_sample_points_length (monitor : gmap string Z)
    (offsets : list (Z * Z)) (points : list SamplePoint.t) :
  _compute_sample_points monitor offsets = Some points ->
  length points = length offsets.
Proof.
  unfold _compute_sample_points. intros H.
  destruct (monitor !! "left"%string), (monitor !! "width"%string),
    (monitor !! "top"%string), (monitor !! "height"%string);
    try discriminate H.
  injection H as <-. apply length_map.
Qed.

(** Building a sampler raises (a [KeyError]) exactly when the monitor
    dictionary lacks one of its four keys.  A sampler that is built has
    one sample point per offset and never none: an empty list of offsets
    is taken as no list at all and gives the 10 default points. *)
Theorem new_sampler_points (monitor : gmap string Z)
    (cluster_offsets : option (list (Z * Z))) :
  (new_sampler monitor cluster_offsets = None <->
   monitor !! "left"%string = None \/ monitor !! "width"%string = None
   \/ monitor !! "top"%string = None \/ monitor !! "height"%string = None)
  /\ forall self : PixelSampler,
       new_sampler monitor cluster_offsets = Some self ->
       _sample_points self <> []
       /\ length (_sample_points self) = length (_cluster_offsets self)
       /\ (cluster_offsets = None \/ cluster_offsets = Some [] ->
           _cluster_offsets self = _default_offsets
           /\ length (_sample_points self) = 10%nat)
       /\ (forall o os, cluster_offsets = Some (o :: os) ->
           _cluster_offsets self = o :: os).
Proof.
  split.
  - unfold new_sampler, _compute_sample_points.
    destruct (monitor !! "left"%string), (monitor !! "width"%string),
      (monitor !! "top"%string), (monitor !! "height"%string);
      split; intros H; try reflexivity; try discriminate H;
      try (destruct H as [H|[H|[H|H]]]; discriminate H);
      auto.
  - intros self Hnew. unfold new_sampler in Hnew.
    destruct (_compute_sample_points monitor
                (offsets_or_default cluster_offsets)) as [points|] eqn:Hp;
      [|discriminate Hnew].
    injection Hnew as <-. simpl.
    pose proof (compute_sample_points_length _ _ _ Hp) as Hlen.
    pose proof (offsets_or_default_nonempty cluster_offsets) as Hne.
    split; [|split; [exact Hlen|split]].
    + intros ->.
      destruct (offsets_or_default cluster_offsets); [congruence|].
      discriminate Hlen.
    + intros [-> | ->]; rewrite Hlen; split; reflexivity.
    + intros o os ->. reflexivity.
Qed.

Lemma lookup_monitor_dict (mleft mtop mwidth mheight : Z) :
  monitor_dict mleft mtop mwidth mheight !! "left"%string = Some mleft
  /\ monitor_dict mleft mtop mwidth mheight !! "width"%string = Some mwidth
  /\ monitor_dict mleft mtop mwidth mheight !! "top"%string = Some mtop
  /\ monitor_dict mleft mtop mwidth mheight !! "height"%string = Some mheight.
Proof.
  unfold monitor_dict. repeat split; simplify_map_eq; reflexivity.
Qed.

Lemma compute_sample_points_dict (mleft mtop mwidth mheight : Z)
    (offsets : list (Z * Z)) :
  _compute_sample_points (monitor_dict mleft mtop mwidth mheight) offsets =
  Some (map (fun d : Z * Z =>
               {| SamplePoint.x := mleft + mwidth / 2 + fst d;
                  SamplePoint.y := mtop + mheight / 2 + snd d |})
            offsets).
Proof.
  unfold _compute_sample_points.
  destruct (lookup_monitor_dict mleft mtop mwidth mheight)
    as (-> & -> & -> & ->).
  reflexivity.
Qed.

(** On a monitor at least 3 pixels wide and 5 pixels high, wherever it
    lies on the virtual screen, every default sample point is a pixel of
    that monitor. *)
Theorem default_points_on_monitor (mleft mtop mwidth mheight : Z) :
  3 <= mwidth ->
  5 <= mheight ->
  exists self : PixelSampler,
    new_sampler (monitor_dict mleft mtop mwidth mheight) None = Some self
    /\ Forall (on_monitor mleft mtop mwidth mheight) (_sample_points self).
Proof.
  intros Hw Hh. unfold new_sampler.
  rewrite compute_sample_points_dict. eexists. split; [reflexivity|].
  simpl.
  assert (1 <= mwidth / 2) by (apply Z.div_le_lower_bound; lia).
  assert (mwidth / 2 + 1 < mwidth)
    by (pose proof (Z.mul_div_le mwidth 2); pose proof (Z.mod_pos_bound mwidth 2);
        pose proof (Z.div_mod mwidth 2); lia).
  assert (1 <= mheight / 2) by (apply Z.div_le_lower_bound; lia).
  assert (mheight / 2 + 2 < mheight)
    by (pose proof (Z.div_mod mheight 2); pose proof (Z.mod_pos_bound mheight 2);
        lia).
  repeat constructor; simpl; lia.
Qed.

Lemma default_points_on_monitor_witness :
  exists self : PixelSampler,
    new_sampler (monitor_dict 0 0 1920 1080) None = Some self
    /\ Forall (on_monitor 0 0 1920 1080) (_sample_points self).
Proof.
  apply (default_points_on_monitor 0 0 1920 1080).
  - lia.
  - lia.
Defined.

(** Different offsets give different sample points, and conversely: no
    pixel is read twice in one sample unless an offset is listed twice.
    The default offsets are ten different ones. *)
Theorem sample_points_distinct (monitor : gmap string Z)
    (offsets : list (Z * Z)) (points : list SamplePoint.t) :
  _compute_sample_points monitor offsets = Some points ->
  (NoDup points <-> NoDup offsets) /\ NoDup _default_offsets.
Proof.
  intros H. split.
  - unfold _compute_sample_points in H.
    destruct (monitor !! "left"%string) as [l|],
      (monitor !! "width"%string) as [w|],
      (monitor !! "top"%string) as [t|],
      (monitor !! "height"%string) as [h|];
      try discriminate H.
    injection H as <-.
    assert (Hinj : Inj (=) (=)
                     (fun d : Z * Z =>
                        {| SamplePoint.x := l + w / 2 + fst d;
                           SamplePoint.y := t + h / 2 + snd d |})).
    { intros [dx dy] [dx' dy'] [= Hx Hy]. simpl in *. f_equal; lia. }
    exact (NoDup_fmap _ offsets).
  - apply (bool_decide_unpack _). vm_compute. exact I.
Qed.

Lemma sample_points_distinct_witness :
  (NoDup (map (fun d : Z * Z =>
                 {| SamplePoint.x := 0 + 1920 / 2 + fst d;
                    SamplePoint.y := 0 + 1080 / 2 + snd d |})
              _default_offsets)
   <-> NoDup _default_offsets)
  /\ NoDup _default_offsets.
Proof.
  apply (sample_points_distinct (monitor_dict 0 0 1920 1080)).
  apply compute_sample_points_dict.
Defined.

Lemma sample_from_colours (grab : Z -> Z -> option RGB)
    (points : list SamplePoint.t) :
  forall acc colours : list RGB,
    sample_from grab acc points = Colours colours <->
    exists rest : list RGB,
      colours = acc ++ rest
      /\ Forall2 (fun p c => grab (SamplePoint.x p) (SamplePoint.y p) = Some c)
                 points rest.
Proof.
  induction points as [|p points IH]; intros acc colours; simpl.
  - split.
    + intros [= <-]. exists []. rewrite app_nil_r. split; constructor.
    + intros (rest & -> & Hall). inversion Hall. rewrite app_nil_r.
      reflexivity.
  - destruct (grab (SamplePoint.x p) (SamplePoint.y p)) as [c|] eqn:Hg.
    + rewrite IH. split.
      * intros (rest & -> & Hall). exists (c :: rest).
        rewrite <- app_assoc. split; [reflexivity|].
        constructor; assumption.
      * intros (rest & -> & Hall). inversion Hall as [|? c' ? rest' Hc Hall']; subst.
        assert (c' = c) as -> by congruence.
        exists rest'. rewrite <- app_assoc. split; [reflexivity|assumption].
    + split; [discriminate|].
      intros (rest & _ & Hall). inversion Hall; congruence.
Qed.

Lemma sample_from_error (grab : Z -> Z -> option RGB)
    (points : list SamplePoint.t) :
  forall acc : list RGB,
    sample_from grab acc points = CaptureError <->
    Exists (fun p => grab (SamplePoint.x p) (SamplePoint.y p) = None) points.
Proof.
  induction points as [|p points IH]; intros acc; simpl.
  - split; [discriminate|]. intros H. inversion H.
  - destruct (grab (SamplePoint.x p) (SamplePoint.y p)) as [c|] eqn:Hg.
    + rewrite IH. split.
      * intros H. apply Exists_cons_tl. exact H.
      * intros H. inversion H; [congruence|assumption].
    + split; [|reflexivity]. intros _. apply Exists_cons_hd. exact Hg.
Qed.

(** A sample is positionally aligned with the sample points: [sample]
    returns colours exactly when every point can be grabbed, and then the
    colour at index [i] is the pixel at point [i], one colour per point;
    it raises exactly when the grab of some point raises, and then it
    returns no part of the sample. *)
Theorem sample_aligned (self : PixelSampler)
    (grab : nat -> Z -> Z -> option RGB) (tl : ThreadLocal) (thread : nat) :
  let handle := snd (_thread_local_mss tl thread) in
  let pixel p := grab handle (SamplePoint.x p) (SamplePoint.y p) in
  (forall colours : list RGB,
      snd (sample self grab tl thread) = Colours colours <->
      Forall2 (fun p c => pixel p = Some c) (_sample_points self) colours)
  /\ (snd (sample self grab tl thread) = CaptureError <->
      Exists (fun p => pixel p = None) (_sample_points self))
  /\ (forall colours : list RGB,
      snd (sample self grab tl thread) = Colours colours ->
      length colours = length (_sample_points self)
      /\ forall i p, _sample_points self !! i = Some p ->
                     colours !! i = pixel p).
Proof.
  intros handle pixel.
  assert (Hs : snd (sample self grab tl thread) =
               sample_from (grab handle) [] (_sample_points self)).
  { unfold sample, handle. destruct (_thread_local_mss tl thread). reflexivity. }
  rewrite Hs.
  assert (Hcol : forall colours,
             sample_from (grab handle) [] (_sample_points self) = Colours colours
             <-> Forall2 (fun p c => pixel p = Some c)
                         (_sample_points self) colours).
  { intros colours. rewrite sample_from_colours. simpl. split.
    - intros (rest & -> & H). exact H.
    - intros H. exists colours. split; [reflexivity|exact H]. }
  split; [exact Hcol|]. split; [apply sample_from_error|].
  intros colours Hc. apply Hcol in Hc. split.
  - symmetry. exact (Forall2_length _ _ _ Hc).
  - intros i p Hp.
    destruct (Forall2_lookup_l _ _ _ _ _ Hc Hp) as (c & Hi & Hpc).
    rewrite Hi, Hpc. reflexivity.
Qed.

(** *** Thread-local capture handles *)

Lemma thread_local_mss_private (tl : ThreadLocal) (thread : nat) :
  handles_private tl -> handles_private (fst (_thread_local_mss tl thread)).
Proof.
  intros (Hlt & Hinj & Hsize). unfold _thread_local_mss, handles_private.
  destruct (sct tl !! thread) as [h|] eqn:Ht; simpl.
  - repeat split; assumption.
  - repeat split.
    + intros t h. rewrite lookup_insert.
      destruct (decide (thread = t)) as [->|Hne]; simpl.
      * intros [= <-]. lia.
      * intros H. apply Hlt in H. lia.
    + intros t1 t2 h. rewrite !lookup_insert.
      destruct (decide (thread = t1)) as [E1|H1],
               (decide (thread = t2)) as [E2|H2]; simpl.
      * intros _ _. congruence.
      * intros [= <-] H. apply Hlt in H. lia.
      * intros H [= <-]. apply Hlt in H. lia.
      * apply Hinj.
    + rewrite map_size_insert_None by assumption. rewrite Hsize. reflexivity.
Qed.

Lemma thread_local_mss_keeps (tl : ThreadLocal) (thread t h : nat) :
  sct tl !! t = Some h ->
  sct (fst (_thread_local_mss tl thread)) !! t = Some h.
Proof.
  intros H. unfold _thread_local_mss.
  destruct (sct tl !! thread) as [h'|] eqn:Ht; simpl; [exact H|].
  rewrite lookup_insert_ne; [exact H|]. congruence.
Qed.

Lemma thread_local_mss_has (tl : ThreadLocal) (thread : nat) :
  sct (fst (_thread_local_mss tl thread)) !! thread =
  Some (snd (_thread_local_mss tl thread)).
Proof.
  unfold _thread_local_mss.
  destruct (sct tl !! thread) as [h'|] eqn:Ht; simpl; [exact Ht|].
  apply lookup_insert_eq.
Qed.

Lemma thread_local_calls_private (threads : list nat) :
  forall tl, handles_private tl ->
             handles_private (thread_local_calls tl threads).
Proof.
  induction threads as [|t threads IH]; intros tl H; simpl; [exact H|].
  apply IH, thread_local_mss_private, H.
Qed.

Lemma thread_local_calls_keep (threads : list nat) :
  forall tl t h,
    sct tl !! t = Some h ->
    sct (thread_local_calls tl threads) !! t = Some h.
Proof.
  induction threads as [|t' threads IH]; intros tl t h H; simpl; [exact H|].
  apply IH, thread_local_mss_keeps, H.
Qed.

Lemma thread_local_calls_dom (threads : list nat) :
  forall tl t,
    is_Some (sct (thread_local_calls tl threads) !! t) <->
    is_Some (sct tl !! t) \/ t ∈ threads.
Proof.
  induction threads as [|t' threads IH]; intros tl t; simpl.
  - rewrite elem_of_nil. tauto.
  - rewrite IH, elem_of_cons. unfold _thread_local_mss.
    destruct (sct tl !! t') as [h'|] eqn:Ht'; simpl.
    + split; [tauto|]. intros [H|[->|H]]; [tauto| |tauto].
      left. rewrite Ht'. eauto.
    + rewrite lookup_insert.
      destruct (decide (t' = t)) as [->|Hne]; simpl.
      * split; [tauto|]. intros _. left. eauto.
      * split; [tauto|]. intros [H|[->|H]]; [tauto|congruence|tauto].
Qed.

(** However the calls of [_thread_local_mss] on a fresh sampler are
    ordered, exactly the threads that called hold an [mss] instance, no
    two threads hold the same one, one instance has been made per thread,
    a thread that calls again gets the instance it holds and makes no new
    one, and later calls of any thread leave it in place. *)
Theorem thread_local_handles (threads : list nat) :
  let tl := thread_local_calls no_thread_local threads in
  (forall t : nat, is_Some (sct tl !! t) <-> t ∈ threads)
  /\ (forall t1 t2 h : nat,
         sct tl !! t1 = Some h -> sct tl !! t2 = Some h -> t1 = t2)
  /\ instances tl = size (sct tl)
  /\ (forall t : nat, t ∈ threads ->
         exists h : nat,
           sct tl !! t = Some h /\ _thread_local_mss tl t = (tl, h))
  /\ (forall (later : list nat) (t h : nat),
         sct tl !! t = Some h ->
         sct (thread_local_calls tl later) !! t = Some h).
Proof.
  intros tl.
  assert (Hpriv : handles_private tl).
  { apply thread_local_calls_private. unfold handles_private. simpl.
    split; [|split].
    - intros t h H. rewrite lookup_empty in H. discriminate H.
    - intros t1 t2 h H. rewrite lookup_empty in H. discriminate H.
    - apply map_size_empty. }
  assert (Hdom : forall t, is_Some (sct tl !! t) <-> t ∈ threads).
  { intros t. unfold tl. rewrite thread_local_calls_dom. simpl.
    rewrite lookup_empty. split; [|tauto].
    intros [[h H]|H]; [discriminate H|exact H]. }
  destruct Hpriv as (_ & Hinj & Hsize).
  split; [exact Hdom|]. split; [exact Hinj|]. split; [symmetry; exact Hsize|].
  split.
  - intros t Ht. apply Hdom in Ht as [h Hh]. exists h. split; [exact Hh|].
    unfold _thread_local_mss. rewrite Hh. reflexivity.
  - intros later t h. apply thread_local_calls_keep.
Qed.

(* ===================================================================== *)
(** ** Further properties of the key sender *)
(* ===================================================================== *)

(** One tap consists of four actions, and the seconds it asks to sleep
    add up to at most 120 ms and to at least the float [0.03] plus 10 ms,
    which is less than [2 ^ -59] s short of 40 ms. *)
Theorem tap_duration (self : NaturalKeySender) (u1 u2 : Q) :
  unit_draw u1 -> unit_draw u2 ->
  (binary64 (3 # 100) + (1 # 100) <= slept (tap self u1 u2) <= 12 # 100)%Q
  /\ ((4 # 100) - (1 # 2 ^ 59) <= slept (tap self u1 u2))%Q
  /\ length (tap self u1 u2) = 4%nat.
Proof.
  intros Hu1 Hu2.
  destruct (uniform_before u1 Hu1) as [[Hb1 Hb2] _].
  destruct (uniform_hold u2 Hu2) as [[Hh1 Hh2] _].
  assert (Ea : ((3 # 100) - (1 # 2 ^ 59) <= binary64 (3 # 100))%Q)
    by (vm_compute; discriminate).
  unfold tap, slept. cbn [foldr length]. numerals.
  repeat split; lra.
Qed.

Lemma tap_duration_witness :
  (binary64 (3 # 100) + (1 # 100)
   <= slept (tap {| _key := from_char "x"%char |} (1 # 2) (1 # 4))
   <= 12 # 100)%Q
  /\ ((4 # 100) - (1 # 2 ^ 59)
      <= slept (tap {| _key := from_char "x"%char |} (1 # 2) (1 # 4)))%Q
  /\ length (tap {| _key := from_char "x"%char |} (1 # 2) (1 # 4)) = 4%nat.
Proof.
  apply (tap_duration {| _key := from_char "x"%char |} (1 # 2) (1 # 4)).
  - exists (2 ^ 52). split; [lia | reflexivity].
  - exists (2 ^ 51). split; [lia | reflexivity].
Defined.

(* ===================================================================== *)
(** ** Invariants of the controller *)
(* ===================================================================== *)

(** An invariant of the start world that every step keeps holds in every
    world a schedule reaches. *)
Lemma run_invariant (I : World -> Prop) (ok : Event -> Prop) :
  (forall w w' e, ok e -> step w e = Some w' -> I w -> I w') ->
  forall es w w', Forall ok es -> run w es = Some w' -> I w -> I w'.
Proof.
  intros Hstep. induction es as [|e es IH]; intros w w' Hok Hrun HI;
    simpl in Hrun.
  - injection Hrun as <-. exact HI.
  - destruct (step w e) as [w1|] eqn:He; [|discriminate Hrun].
    apply Forall_cons in Hok as [Hoke Hok].
    exact (IH w1 w' Hok Hrun (Hstep w w1 e Hoke He HI)).
Qed.

Lemma Forall_any (es : list Event) : Forall (fun _ => True) es.
Proof. apply Forall_forall. intros; exact I. Qed.

(** The detector, the sender and the poll interval are set once. *)
Lemma step_config (w w' : World) (e : Event) :
  step w e = Some w' ->
  _detector (controller w') = _detector (controller w)
  /\ _sender (controller w') = _sender (controller w)
  /\ _poll_interval (controller w') = _poll_interval (controller w).
Proof.
  intros Hstep.
  destruct e as [button pressed s | t | t s | t u1 u2 | t | t];
    simpl in Hstep.
  - injection Hstep as <-. unfold _handle_click, _begin_monitoring.
    destruct (negb (Button.eqb button Button.x2)), pressed,
      (_monitoring (controller w)), s; repeat split; reflexivity.
  - at_point Hstep.
    destruct (_monitoring (controller w)), (_baseline (controller w));
      injection Hstep as <-; repeat split; reflexivity.
  - at_point Hstep. destruct s; [destruct (has_changed _ _ _)|];
      injection Hstep as <-; repeat split; reflexivity.
  - at_point Hstep. injection Hstep as <-. repeat split; reflexivity.
  - at_point Hstep. injection Hstep as <-. repeat split; reflexivity.
  - at_point Hstep. injection Hstep as <-. repeat split; reflexivity.
Qed.

Lemma run_config (es : list Event) (w w' : World) :
  run w es = Some w' ->
  _detector (controller w') = _detector (controller w)
  /\ _sender (controller w') = _sender (controller w).
Proof.
  intros Hrun.
  apply (run_invariant
           (fun v => _detector (controller v) = _detector (controller w)
                     /\ _sender (controller v) = _sender (controller w))
           (fun _ => True)) with (es := es) (w := w);
    [|apply Forall_any|exact Hrun|split; reflexivity].
  intros v v' e _ Hstep [Hd Hs].
  destruct (step_config v v' e Hstep) as (Hd' & Hs' & _).
  split; congruence.
Qed.

(** *** While monitoring there is a baseline *)

Lemma step_baseline_present (w w' : World) (e : Event) :
  step w e = Some w' ->
  (_monitoring (controller w) = true -> is_Some (_baseline (controller w))) ->
  _monitoring (controller w') = true -> is_Some (_baseline (controller w')).
Proof.
  intros Hstep HI.
  destruct e as [button pressed s | t | t s | t u1 u2 | t | t];
    simpl in Hstep.
  - injection Hstep as <-. unfold _handle_click, _begin_monitoring.
    destruct (negb (Button.eqb button Button.x2)); [exact HI|].
    destruct pressed; [|discriminate].
    destruct (_monitoring (controller w)) eqn:Hm;
      [simpl; intros _; apply HI; reflexivity|].
    destruct s; [simpl; eauto|]. simpl. rewrite Hm. discriminate.
  - at_point Hstep.
    destruct (_monitoring (controller w)) eqn:Hm,
      (_baseline (controller w)) eqn:Hb;
      injection Hstep as <-; simpl; rewrite ?Hm, ?Hb; exact HI.
  - at_point Hstep. destruct s; [destruct (has_changed _ _ _)|];
      injection Hstep as <-; exact HI.
  - at_point Hstep. injection Hstep as <-. exact HI.
  - at_point Hstep. injection Hstep as <-. simpl. eauto.
  - at_point Hstep. injection Hstep as <-. exact HI.
Qed.

(** In every world that a schedule reaches from a new controller, a
    controller that is monitoring has a baseline: the test
    [self._baseline is None] of the loop never decides on its own. *)
Theorem monitoring_has_baseline (detector : ChangeDetector)
    (sender : NaturalKeySender) (poll_interval : Q) (w : World) :
  reachable (new_controller detector sender poll_interval) w ->
  _monitoring (controller w) = true ->
  is_Some (_baseline (controller w)).
Proof.
  intros [es Hrun].
  apply (run_invariant
           (fun v => _monitoring (controller v) = true ->
                     is_Some (_baseline (controller v)))
           (fun _ => True)) with (es := es) (w := start_world
             (new_controller detector sender poll_interval));
    [|apply Forall_any|exact Hrun|discriminate].
  intros v v' e _. apply step_baseline_present.
Qed.

Lemma monitoring_has_baseline_witness :
  is_Some (_baseline (controller watching)).
Proof.
  apply (monitoring_has_baseline default_detector
           {| _key := from_char "x"%char |} (2 # 100) watching).
  - exists [ButtonPressed (Colours steady); poll_check 0]. reflexivity.
  - reflexivity.
Defined.

(** *** The thread handle *)

Lemma last_thread_app (ps : list Poller) (p : Poller) :
  last_thread (ps ++ [p]) = Some (length ps).
Proof.
  destruct ps as [|q ps]; simpl; [reflexivity|].
  rewrite length_app. simpl. f_equal. lia.
Qed.

Lemma last_thread_insert (ps : list Poller) (t : nat) (p : Poller) :
  last_thread (<[t := p]> ps) = last_thread ps.
Proof.
  destruct ps as [|q ps]; [reflexivity|].
  destruct t as [|t]; simpl; [reflexivity|]. rewrite length_insert.
  reflexivity.
Qed.

Lemma step_monitor_thread (w w' : World) (e : Event) :
  step w e = Some w' ->
  _monitor_thread (controller w) = last_thread (pollers w) ->
  _monitor_thread (controller w') = last_thread (pollers w')
  /\ (length (pollers w) <= length (pollers w'))%nat.
Proof.
  intros Hstep HI.
  destruct e as [button pressed s | t | t s | t u1 u2 | t | t];
    simpl in Hstep.
  - injection Hstep as <-. unfold _handle_click, _begin_monitoring.
    destruct (negb (Button.eqb button Button.x2));
      [simpl; split; [exact HI|lia]|].
    destruct pressed; [|simpl; split; [exact HI|lia]].
    destruct (_monitoring (controller w)); [simpl; split; [exact HI|lia]|].
    destruct s; [|simpl; split; [exact HI|lia]]. simpl.
    rewrite last_thread_app, length_app. split; [reflexivity|lia].
  - at_point Hstep.
    destruct (_monitoring (controller w)), (_baseline (controller w));
      injection Hstep as <-; simpl;
      rewrite last_thread_insert, length_insert; (split; [exact HI|lia]).
  - at_point Hstep. destruct s; [destruct (has_changed _ _ _)|];
      injection Hstep as <-; simpl;
      rewrite last_thread_insert, length_insert; (split; [exact HI|lia]).
  - at_point Hstep. injection Hstep as <-. simpl.
    rewrite last_thread_insert, length_insert. split; [exact HI|lia].
  - at_point Hstep. injection Hstep as <-. simpl.
    rewrite last_thread_insert, length_insert. split; [exact HI|lia].
  - at_point Hstep. injection Hstep as <-. simpl.
    rewrite last_thread_insert, length_insert. split; [exact HI|lia].
Qed.

(** [_monitor_thread] always holds the thread created last, and [None]
    only as long as none was created; the threads created earlier are no
    longer referred to by the controller. *)
Theorem monitor_thread_is_last (detector : ChangeDetector)
    (sender : NaturalKeySender) (poll_interval : Q) (w : World) :
  reachable (new_controller detector sender poll_interval) w ->
  _monitor_thread (controller w) = last_thread (pollers w).
Proof.
  intros [es Hrun].
  apply (run_invariant
           (fun v => _monitor_thread (controller v) = last_thread (pollers v))
           (fun _ => True)) with (es := es) (w := start_world
             (new_controller detector sender poll_interval));
    [|apply Forall_any|exact Hrun|reflexivity].
  intros v v' e _ Hstep HI. exact (proj1 (step_monitor_thread v v' e Hstep HI)).
Qed.

Lemma monitor_thread_is_last_witness :
  _monitor_thread (controller watching) = last_thread (pollers watching).
Proof.
  apply (monitor_thread_is_last default_detector
           {| _key := from_char "x"%char |} (2 # 100) watching).
  exists [ButtonPressed (Colours steady); poll_check 0]. reflexivity.
Defined.

(** *** What reaches the keyboard *)

Lemma key_events_app (l1 l2 : list Action) :
  key_events (l1 ++ l2) = key_events l1 ++ key_events l2.
Proof. unfold key_events. apply List.filter_app. Qed.

Lemma taps_of_snoc (k : Key) (n : nat) :
  taps_of k n ++ [press k; release k] = taps_of k (S n).
Proof.
  induction n as [|n IH]; [reflexivity|].
  change (taps_of k (S n)) with (press k :: release k :: taps_of k n).
  simpl app. rewrite IH. reflexivity.
Qed.

Lemma step_key_events (w w' : World) (e : Event) (k : Key) (n : nat) :
  step w e = Some w' ->
  _key (_sender (controller w)) = k ->
  key_events (keyboard w) = taps_of k n ->
  key_events (keyboard w') = taps_of k (taps_in [e] + n).
Proof.
  intros Hstep Hk HI.
  destruct e as [button pressed s | t | t s | t u1 u2 | t | t];
    simpl in Hstep.
  - injection Hstep as <-. unfold _handle_click, _begin_monitoring.
    destruct (negb (Button.eqb button Button.x2)), pressed,
      (_monitoring (controller w)), s; exact HI.
  - at_point Hstep.
    destruct (_monitoring (controller w)), (_baseline (controller w));
      injection Hstep as <-; exact HI.
  - at_point Hstep. destruct s; [destruct (has_changed _ _ _)|];
      injection Hstep as <-; exact HI.
  - at_point Hstep. injection Hstep as <-. simpl keyboard.
    rewrite key_events_app, HI. unfold tap. simpl key_events.
    rewrite Hk. apply taps_of_snoc.
  - at_point Hstep. injection Hstep as <-. exact HI.
  - at_point Hstep. injection Hstep as <-. exact HI.
Qed.

Lemma taps_in_cons (e : Event) (es : list Event) :
  taps_in (e :: es) = (taps_in [e] + taps_in es)%nat.
Proof. destruct e; reflexivity. Qed.

Lemma run_key_events (es : list Event) :
  forall (w w' : World) (n : nat),
    run w es = Some w' ->
    key_events (keyboard w) = taps_of (_key (_sender (controller w))) n ->
    key_events (keyboard w') =
    taps_of (_key (_sender (controller w))) (n + taps_in es).
Proof.
  induction es as [|e es IH]; intros w w' n Hrun HI; simpl in Hrun.
  - injection Hrun as <-. rewrite Nat.add_0_r. exact HI.
  - destruct (step w e) as [w1|] eqn:He; [|discriminate Hrun].
    destruct (step_config w w1 e He) as (_ & Hs & _).
    pose proof (step_key_events w w1 e _ n He eq_refl HI) as H1.
    rewrite <- Hs in H1. rewrite (IH w1 w' _ Hrun H1), Hs, (taps_in_cons e es).
    f_equal. lia.
Qed.

(** Whatever the schedule, the keys sent are one press and one release of
    the configured key for every call of [tap], in that order: no other
    key is ever touched, a press is always followed by its release before
    the next press, and no key is held at the end. *)
Theorem keyboard_is_taps (c0 : ChangeClickController) (es : list Event)
    (w : World) :
  run (start_world c0) es = Some w ->
  key_events (keyboard w) = taps_of (_key (_sender c0)) (taps_in es).
Proof.
  intros Hrun.
  exact (run_key_events es (start_world c0) w 0 Hrun eq_refl).
Qed.

Lemma keyboard_is_taps_witness :
  key_events
    (tap (_sender default_controller) (1 # 2) (1 # 2)) =
  taps_of (_key (_sender default_controller)) (taps_in released_during_tap).
Proof.
  apply (keyboard_is_taps default_controller released_during_tap
           {| controller :=
                set_monitor_thread (Some 0%nat)
                  (set_monitoring false
                     (set_baseline (Some flashed) default_controller));
              pollers := [at_sleep];
              keyboard := tap (_sender default_controller) (1 # 2) (1 # 2) |}).
  reflexivity.
Defined.

(** *** Only what the sampler returned is stored and compared *)

Lemma step_samples (P : list RGB -> Prop) (w w' : World) (e : Event) :
  event_samples P e ->
  step w e = Some w' ->
  baseline_sample P w /\ Forall (poller_samples P) (pollers w) ->
  baseline_sample P w' /\ Forall (poller_samples P) (pollers w').
Proof.
  intros He Hstep [Hb Hp]. unfold baseline_sample in *.
  destruct e as [button pressed s | t | t s | t u1 u2 | t | t];
    simpl in Hstep.
  - injection Hstep as <-. unfold _handle_click, _begin_monitoring.
    destruct button; simpl; try (split; assumption).
    destruct pressed; simpl; [|split; [exact I|assumption]].
    destruct (_monitoring (controller w)); simpl; [split; assumption|].
    destruct s as [c|]; simpl; [|split; assumption].
    split; [exact He|]. apply Forall_app. split; [assumption|].
    constructor; [exact I|constructor].
  - at_point Hstep.
    destruct (_monitoring (controller w)),
      (_baseline (controller w)) as [b|] eqn:Hbase;
      injection Hstep as <-; simpl; rewrite ?Hbase;
      (split; [assumption|]); apply Forall_insert; simpl; auto.
  - at_point Hstep. destruct s as [c|]; [destruct (has_changed _ _ _)|];
      injection Hstep as <-; simpl;
      (split; [assumption|]); apply Forall_insert; simpl; auto.
  - at_point Hstep. injection Hstep as <-. simpl.
    split; [assumption|]. apply Forall_insert; [assumption|].
    exact (Forall_lookup_1 _ _ _ _ Hp Hat).
  - at_point Hstep. injection Hstep as <-. simpl.
    split; [exact (Forall_lookup_1 _ _ _ _ Hp Hat)|].
    apply Forall_insert; [assumption|exact I].
  - at_point Hstep. injection Hstep as <-. simpl.
    split; [assumption|]. apply Forall_insert; [assumption|exact I].
Qed.

Lemma run_samples (P : list RGB -> Prop) (detector : ChangeDetector)
    (sender : NaturalKeySender) (poll_interval : Q) (es : list Event)
    (w : World) :
  Forall (event_samples P) es ->
  run (start_world (new_controller detector sender poll_interval)) es
    = Some w ->
  baseline_sample P w /\ Forall (poller_samples P) (pollers w).
Proof.
  intros Hes Hrun.
  apply (run_invariant
           (fun v => baseline_sample P v /\ Forall (poller_samples P) (pollers v))
           (event_samples P)) with (es := es) (w := start_world
             (new_controller detector sender poll_interval));
    [|exact Hes|exact Hrun|split; [exact I|constructor]].
  intros v v' e. apply step_samples.
Qed.

(** If every sample the sampler hands out has [n] colours, then so has
    every baseline the controller stores and every snapshot or sample a
    polling thread carries: each comparison is between two samples of one
    length. *)
Theorem comparisons_are_aligned (n : nat) (detector : ChangeDetector)
    (sender : NaturalKeySender) (poll_interval : Q) (es : list Event)
    (w : World) :
  Forall (event_samples (fun c => length c = n)) es ->
  run (start_world (new_controller detector sender poll_interval)) es
    = Some w ->
  baseline_sample (fun c => length c = n) w
  /\ Forall (poller_samples (fun c => length c = n)) (pollers w)
  /\ forall (t : nat) (baseline current : list RGB),
       pollers w !! t = Some (at_sample baseline) ->
       length current = n ->
       length baseline = length current.
Proof.
  intros Hes Hrun.
  destruct (run_samples _ detector sender poll_interval es w Hes Hrun)
    as [Hb Hp].
  split; [exact Hb|]. split; [exact Hp|].
  intros t baseline current Hat Hc.
  pose proof (Forall_lookup_1 _ _ _ _ Hp Hat) as H. simpl in H. congruence.
Qed.

Lemma comparisons_are_aligned_witness :
  baseline_sample (fun c => length c = 10%nat) watching
  /\ Forall (poller_samples (fun c => length c = 10%nat)) (pollers watching)
  /\ forall (t : nat) (baseline current : list RGB),
       pollers watching !! t = Some (at_sample baseline) ->
       length current = 10%nat ->
       length baseline = length current.
Proof.
  apply (comparisons_are_aligned 10 default_detector
           {| _key := from_char "x"%char |} (2 # 100)
           [ButtonPressed (Colours steady); poll_check 0] watching).
  - repeat constructor.
  - reflexivity.
Defined.

(** *** A screen that does not change *)

Lemma has_changed_from_same (self : ChangeDetector) (A : list RGB) :
  0 <= _tolerance self ->
  forall changes : Z, has_changed_from self changes (zip A A) = false.
Proof.
  intros Htol. induction A as [|c A IH]; intros changes; simpl.
  - reflexivity.
  - rewrite delta_same.
    destruct (0 >? _tolerance self) eqn:E; [lia|]. apply IH.
Qed.

Lemma step_quiet (c : list RGB) (w w' : World) (e : Event) :
  0 <= _tolerance (_detector (controller w)) ->
  event_samples (fun s => s = c) e ->
  step w e = Some w' ->
  Forall (poller_samples (fun s => s = c)) (pollers w) ->
  keyboard w = [] /\ Forall not_tapping (pollers w) ->
  keyboard w' = [] /\ Forall not_tapping (pollers w').
Proof.
  intros Htol He Hstep Hp [Hk Hq].
  destruct e as [button pressed s | t | t s | t u1 u2 | t | t];
    simpl in Hstep.
  - injection Hstep as <-. unfold _handle_click, _begin_monitoring.
    destruct (negb (Button.eqb button Button.x2)); [split; assumption|].
    destruct pressed; [|split; assumption].
    destruct (_monitoring (controller w)); [split; assumption|].
    destruct s; [|split; assumption]. simpl.
    split; [assumption|]. apply Forall_app. split; [assumption|].
    constructor; [exact I|constructor].
  - at_point Hstep.
    destruct (_monitoring (controller w)), (_baseline (controller w));
      injection Hstep as <-; simpl;
      (split; [assumption|]); apply Forall_insert; simpl; auto.
  - at_point Hstep.
    pose proof (Forall_lookup_1 _ _ _ _ Hp Hat) as Hb. simpl in Hb.
    destruct s as [c'|].
    + simpl in He. subst. unfold has_changed in Hstep.
      rewrite has_changed_from_same in Hstep by assumption.
      injection Hstep as <-. simpl.
      split; [assumption|]. apply Forall_insert; simpl; auto.
    + injection Hstep as <-. simpl.
      split; [assumption|]. apply Forall_insert; simpl; auto.
  - at_point Hstep.
    destruct (Forall_lookup_1 _ _ _ _ Hq Hat).
  - at_point Hstep.
    destruct (Forall_lookup_1 _ _ _ _ Hq Hat).
  - at_point Hstep. injection Hstep as <-. simpl.
    split; [assumption|]. apply Forall_insert; simpl; auto.
Qed.

(** With a tolerance of at least 0, as long as every sample the sampler
    hands out is the same list of colours (or the sampler raises), no key
    is ever sent, however the button is pressed and released and however
    the threads are scheduled. *)
Theorem static_screen_sends_nothing (c : list RGB) (detector : ChangeDetector)
    (sender : NaturalKeySender) (poll_interval : Q) (es : list Event)
    (w : World) :
  0 <= _tolerance detector ->
  Forall (event_samples (fun s => s = c)) es ->
  run (start_world (new_controller detector sender poll_interval)) es
    = Some w ->
  keyboard w = [] /\ Forall not_tapping (pollers w).
Proof.
  intros Htol Hes Hrun.
  set (P := fun s : list RGB => s = c).
  assert (H : (baseline_sample P w /\ Forall (poller_samples P) (pollers w))
              /\ (keyboard w = [] /\ Forall not_tapping (pollers w))
              /\ _detector (controller w) = detector);
    [|exact (proj1 (proj2 H))].
  apply (run_invariant
           (fun v => (baseline_sample P v /\ Forall (poller_samples P) (pollers v))
                     /\ (keyboard v = [] /\ Forall not_tapping (pollers v))
                     /\ _detector (controller v) = detector)
           (event_samples P)) with (es := es) (w := start_world
             (new_controller detector sender poll_interval));
    [|exact Hes|exact Hrun|].
  - intros v v' e He Hstep (Hs & Hq & Hd).
    split; [exact (step_samples P v v' e He Hstep Hs)|]. split.
    + apply (step_quiet c v v' e); try assumption.
      * rewrite Hd. exact Htol.
      * exact (proj2 Hs).
    + destruct (step_config v v' e Hstep) as (Hd' & _). congruence.
  - repeat split; constructor.
Qed.

Lemma static_screen_sends_nothing_witness :
  keyboard watching = [] /\ Forall not_tapping (pollers watching).
Proof.
  apply (static_screen_sends_nothing steady default_detector
           {| _key := from_char "x"%char |} (2 # 100)
           [ButtonPressed (Colours steady); poll_check 0] watching).
  - simpl. lia.
  - repeat constructor.
  - reflexivity.
Defined.

(** *** Clicks of other buttons *)

(** Clicks of buttons other than the trigger can be struck from any
    schedule: with or without them the program ends in the same world. *)
Theorem other_buttons_ignored (es : list Event) (w : World) :
  run w (List.filter concerns_trigger es) = run w es.
Proof.
  revert w. induction es as [|e es IH]; intros w; [reflexivity|].
  simpl List.filter. destruct (concerns_trigger e) eqn:He.
  - simpl. destruct (step w e); [apply IH|reflexivity].
  - destruct e as [button pressed s| | | | |]; try discriminate He.
    simpl in He. simpl run at 2. unfold _handle_click. rewrite He. simpl.
    apply IH.
Qed.

(** *** Starting twice, and stopping *)

Lemma presses_while_monitoring_witness :
  run watching
      (map (fun s => ButtonPressed s)
           [Colours flashed; CaptureError; Colours steady]) = Some watching.
Proof.
  apply (presses_while_monitoring watching
           [Colours flashed; CaptureError; Colours steady]).
  reflexivity.
Defined.

Lemma stop_latency_without_press_witness :
  _monitoring (controller (with_poller 0 finished stopped_mid_cycle)) = false
  /\ (comparisons 0
        [poll_sample 0 (Colours steady); poll_sleep 0; poll_check 0]
      <= pending_comparisons (pollers stopped_mid_cycle !! 0%nat))%nat
  /\ (comparisons 0
        [poll_sample 0 (Colours steady); poll_sleep 0; poll_check 0]
      <= 1)%nat.
Proof.
  apply (stop_latency_without_press
           [poll_sample 0 (Colours steady); poll_sleep 0; poll_check 0]
           stopped_mid_cycle (with_poller 0 finished stopped_mid_cycle) 0%nat).
  - reflexivity.
  - reflexivity.
  - reflexivity.
Defined.

Lemma poll_alone_unroll (n t : nat) (feed : nat -> SampleOutcome * Q * Q)
    (w w1 : World) (p : Poller) (s : SampleOutcome) (u1 u2 : Q) (e : Event) :
  pollers w !! t = Some p ->
  feed n = (s, u1, u2) ->
  next_event t p s u1 u2 = Some e ->
  step w e = Some w1 ->
  poll_alone (S n) t feed w = poll_alone n t feed w1.
Proof.
  intros Hat Hf He Hstep. cbn [poll_alone]. rewrite Hat, Hf, He, Hstep.
  reflexivity.
Qed.

Lemma poll_alone_exited (n t : nat) (feed : nat -> SampleOutcome * Q * Q)
    (w : World) (p : Poller) :
  pollers w !! t = Some p ->
  alive p = false ->
  poll_alone n t feed w = w.
Proof.
  intros Hat Ha. destruct n as [|n]; [reflexivity|].
  cbn [poll_alone]. rewrite Hat. destruct (feed n) as [[s u1] u2].
  destruct p; try discriminate Ha; reflexivity.
Qed.

(** Once monitoring is off, a polling thread that is given the processor
    leaves the loop within five of its own steps, wherever it stands and
    whatever the sampler and the generator yield; monitoring is still off
    then. *)
Theorem stopped_thread_exits (n t : nat)
    (feed : nat -> SampleOutcome * Q * Q) :
  forall (w : World) (p : Poller),
    _monitoring (controller w) = false ->
    pollers w !! t = Some p ->
    (steps_to_exit p <= n)%nat ->
    (steps_to_exit p <= 5)%nat
    /\ _monitoring (controller (poll_alone n t feed w)) = false
    /\ exists p' : Poller,
         pollers (poll_alone n t feed w) !! t = Some p'
         /\ alive p' = false.
Proof.
  induction n as [|n IH]; intros w p Hoff Hat Hle.
  - split; [destruct p; simpl; lia|]. split; [exact Hoff|].
    exists p. split; [exact Hat|]. destruct p; simpl in Hle; try lia;
      reflexivity.
  - split; [destruct p; simpl; lia|].
    destruct (feed n) as [[s u1] u2] eqn:Hf.
    destruct p as [|b|c|c| | |]; simpl in Hle.
    + rewrite (poll_alone_unroll n t feed w (with_poller t finished w)
                 at_check s u1 u2 (poll_check t) Hat Hf eq_refl)
        by (unfold step; rewrite Hat, Hoff; reflexivity).
      apply (IH _ finished); [exact Hoff| |simpl; lia].
      exact (with_poller_lookup w t _ _ Hat).
    + destruct s as [current|].
      * destruct (has_changed (_detector (controller w)) b current) eqn:Hc.
        -- rewrite (poll_alone_unroll n t feed w
                      (with_poller t (at_tap current) w)
                      (at_sample b) (Colours current) u1 u2
                      (poll_sample t (Colours current)) Hat Hf eq_refl)
             by (unfold step; rewrite Hat, Hc; reflexivity).
           apply (IH _ (at_tap current)); [exact Hoff| |simpl; lia].
           exact (with_poller_lookup w t _ _ Hat).
        -- rewrite (poll_alone_unroll n t feed w (with_poller t at_sleep w)
                      (at_sample b) (Colours current) u1 u2
                      (poll_sample t (Colours current)) Hat Hf eq_refl)
             by (unfold step; rewrite Hat, Hc; reflexivity).
           apply (IH _ at_sleep); [exact Hoff| |simpl; lia].
           exact (with_poller_lookup w t _ _ Hat).
      * rewrite (poll_alone_unroll n t feed w (with_poller t died w)
                   (at_sample b) CaptureError u1 u2
                   (poll_sample t CaptureError) Hat Hf eq_refl)
          by (unfold step; rewrite Hat; reflexivity).
        apply (IH _ died); [exact Hoff| |simpl; lia].
        exact (with_poller_lookup w t _ _ Hat).
    + rewrite (poll_alone_unroll n t feed w
                 {| controller := controller w;
                    pollers := <[t := at_rebase c]> (pollers w);
                    keyboard :=
                      keyboard w ++ tap (_sender (controller w)) u1 u2 |}
                 (at_tap c) s u1 u2 (poll_tap t u1 u2) Hat Hf eq_refl)
        by (unfold step; rewrite Hat; reflexivity).
      apply (IH _ (at_rebase c)); [exact Hoff| |simpl; lia].
      simpl. apply list_lookup_insert_eq. exact (lookup_lt_Some _ _ _ Hat).
    + rewrite (poll_alone_unroll n t feed w
                 (with_poller t at_sleep
                    (with_controller
                       (set_baseline (Some c) (controller w)) w))
                 (at_rebase c) s u1 u2 (poll_rebase t) Hat Hf eq_refl)
        by (unfold step; rewrite Hat; reflexivity).
      apply (IH _ at_sleep); [exact Hoff| |simpl; lia].
      simpl. apply list_lookup_insert_eq. exact (lookup_lt_Some _ _ _ Hat).
    + rewrite (poll_alone_unroll n t feed w (with_poller t at_check w)
                 at_sleep s u1 u2 (poll_sleep t) Hat Hf eq_refl)
        by (unfold step; rewrite Hat; reflexivity).
      apply (IH _ at_check); [exact Hoff| |simpl; lia].
      exact (with_poller_lookup w t _ _ Hat).
    + rewrite (poll_alone_exited (S n) t feed w finished Hat eq_refl).
      split; [exact Hoff|]. exists finished. split; [exact Hat|reflexivity].
    + rewrite (poll_alone_exited (S n) t feed w died Hat eq_refl).
      split; [exact Hoff|]. exists died. split; [exact Hat|reflexivity].
Qed.

Lemma stopped_thread_exits_witness :
  (steps_to_exit (at_sample steady) <= 5)%nat
  /\ _monitoring
       (controller
          (poll_alone 5 0 (fun _ => (Colours flashed, 1 # 2, 1 # 2))
                      stopped_mid_cycle)) = false
  /\ exists p' : Poller,
       pollers (poll_alone 5 0 (fun _ => (Colours flashed, 1 # 2, 1 # 2))
                           stopped_mid_cycle) !! 0%nat = Some p'
       /\ alive p' = false.
Proof.
  apply (stopped_thread_exits 5 0 (fun _ => (Colours flashed, 1 # 2, 1 # 2))
           stopped_mid_cycle (at_sample steady)).
  - reflexivity.
  - reflexivity.
  - simpl. lia.
Defined.

(* ===================================================================== *)
(** ** Rebasing under interleaving *)
(* ===================================================================== *)

(** C4 fails on the code.  The thread taps once and writes the sample of
    its iteration as the baseline, but the reference of its next
    comparison is whatever baseline the controller holds at the next
    state check: when the button is let go and pressed again while the
    thread sleeps, the thread stays in the loop and compares against the
    sample of the new press, here the colours from before the change. *)
Theorem rebase_overtaken_by_restart :
  exists w_rebased w : World,
    run (start_world default_controller)
        (held_and_changed ++ [poll_tap 0 (1 # 2) (1 # 2); poll_rebase 0])
      = Some w_rebased
    /\ key_events (keyboard w_rebased) =
       [press (from_char "x"%char); release (from_char "x"%char)]
    /\ _baseline (controller w_rebased) = Some flashed
    /\ pollers w_rebased !! 0%nat = Some at_sleep
    /\ run w_rebased rebased_then_restarted = Some w
    /\ pollers w !! 0%nat = Some (at_sample steady)
    /\ steady <> flashed.
Proof.
  exists {| controller :=
              set_monitor_thread (Some 0%nat)
                (set_monitoring true
                   (set_baseline (Some flashed) default_controller));
            pollers := [at_sleep];
            keyboard := tap (_sender default_controller) (1 # 2) (1 # 2) |}.
  exists {| controller :=
              set_monitor_thread (Some 1%nat)
                (set_monitoring true
                   (set_baseline (Some steady) default_controller));
            pollers := [at_sample steady; at_check];
            keyboard := tap (_sender default_controller) (1 # 2) (1 # 2) |}.
  repeat split; try reflexivity. discriminate.
Qed.

Lemma undisturbed_poller (t : nat) (w v : World) (p : Poller) :
  undisturbed t w v ->
  pollers w !! t = Some p ->
  pollers v !! t = Some p.
Proof.
  intros (es & Hes & Hrun). revert w Hrun.
  induction es as [|e es IH]; intros w Hrun Hat; simpl in Hrun.
  - injection Hrun as <-. exact Hat.
  - destruct (step w e) as [w1|] eqn:He; [|discriminate Hrun].
    apply Forall_cons in Hes as [Hne Hes].
    exact (IH Hes w1 Hrun (step_other_thread w w1 e t p Hne He Hat)).
Qed.

Lemma step_keeps_controller (w w' : World) (e : Event) :
  keeps_baseline e ->
  step w e = Some w' ->
  controller w' = controller w.
Proof.
  intros Hk Hstep.
  destruct e as [button pressed s | t | t s | t u1 u2 | t | t];
    simpl in Hstep.
  - injection Hstep as <-. destruct button; try reflexivity.
    destruct Hk.
  - at_point Hstep.
    destruct (_monitoring (controller w)), (_baseline (controller w));
      injection Hstep as <-; reflexivity.
  - at_point Hstep. destruct s; [destruct (has_changed _ _ _)|];
      injection Hstep as <-; reflexivity.
  - at_point Hstep. injection Hstep as <-. reflexivity.
  - destruct Hk.
  - at_point Hstep. injection Hstep as <-. reflexivity.
Qed.

Lemma unwritten_undisturbed (t : nat) (w v : World) :
  unwritten t w v -> undisturbed t w v /\ controller v = controller w.
Proof.
  intros (es & Hes & Hrun). split.
  - exists es. split; [|exact Hrun].
    apply Forall_impl with (1 := Hes). intros e [H _]. exact H.
  - revert w Hrun. induction es as [|e es IH]; intros w Hrun; simpl in Hrun.
    + injection Hrun as <-. reflexivity.
    + destruct (step w e) as [w1|] eqn:He; [|discriminate Hrun].
      apply Forall_cons in Hes as [[_ Hk] Hes].
      rewrite (IH Hes w1 Hrun). exact (step_keeps_controller w w1 e Hk He).
Qed.

(** From where it stands a thread has one kind of step only. *)
Lemma own_step_forced (w w' : World) (t : nat) (p : Poller) (e : Event) :
  pollers w !! t = Some p ->
  thread_of e = Some t ->
  step w e = Some w' ->
  exists s u1 u2, next_event t p s u1 u2 = Some e.
Proof.
  intros Hat He Hstep.
  destruct e as [button pressed s | t' | t' s | t' u1 u2 | t' | t'];
    simpl in He; try discriminate He; injection He as ->;
    simpl in Hstep; rewrite Hat in Hstep; destruct p; try discriminate Hstep.
  - exists CaptureError, 0%Q, 0%Q. reflexivity.
  - exists s, 0%Q, 0%Q. reflexivity.
  - exists CaptureError, u1, u2. reflexivity.
  - exists CaptureError, 0%Q, 0%Q. reflexivity.
  - exists CaptureError, 0%Q, 0%Q. reflexivity.
Qed.

(** Rebase-on-change, whatever the listener and the other threads do in
    between.  When the comparison of an iteration answers [True]: the
    only step the thread can take next is the tap, which sends exactly
    the four actions of one tap and leaves the controller as it is; the
    only step it can take after that is the write, after which the
    baseline is the sample of this iteration; and if from then on nothing
    else writes the flag or the baseline and monitoring is on, the
    snapshot the thread takes at its next state check is that sample. *)
Theorem rebase_on_change_interleaved (w : World) (t : nat)
    (baseline current : list RGB) :
  pollers w !! t = Some (at_sample baseline) ->
  has_changed (_detector (controller w)) baseline current = true ->
  exists w1 : World,
    step w (poll_sample t (Colours current)) = Some w1
    /\ keyboard w1 = keyboard w
    /\ controller w1 = controller w
    /\ forall v1 : World, undisturbed t w1 v1 ->
       (forall e v, thread_of e = Some t -> step v1 e = Some v ->
                    exists u1 u2, e = poll_tap t u1 u2)
       /\ forall u1 u2 : Q, exists w2 : World,
            step v1 (poll_tap t u1 u2) = Some w2
            /\ keyboard w2 = keyboard v1 ++ tap (_sender (controller v1)) u1 u2
            /\ controller w2 = controller v1
            /\ forall v2 : World, undisturbed t w2 v2 ->
               (forall e v, thread_of e = Some t -> step v2 e = Some v ->
                            e = poll_rebase t)
               /\ exists w3 : World,
                    step v2 (poll_rebase t) = Some w3
                    /\ keyboard w3 = keyboard v2
                    /\ _baseline (controller w3) = Some current
                    /\ _monitoring (controller w3) = _monitoring (controller v2)
                    /\ forall v3 : World, unwritten t w3 v3 ->
                       exists w4 : World,
                         step v3 (poll_sleep t) = Some w4
                         /\ forall v4 : World, unwritten t w4 v4 ->
                            _monitoring (controller w3) = true ->
                            exists w5 : World,
                              step v4 (poll_check t) = Some w5
                              /\ pollers w5 !! t = Some (at_sample current).
Proof.
  intros Hat Hchanged.
  exists (with_poller t (at_tap current) w).
  split; [simpl; rewrite Hat, Hchanged; reflexivity|].
  split; [reflexivity|]. split; [reflexivity|].
  intros v1 Hv1.
  pose proof (undisturbed_poller t _ v1 _ Hv1
                (with_poller_lookup w t (at_tap current) _ Hat)) as H1.
  split.
  { intros e v He Hstep.
    destruct (own_step_forced v1 v t _ e H1 He Hstep) as (s & a & b & Hn).
    simpl in Hn. injection Hn as <-. eauto. }
  intros u1 u2.
  exists {| controller := controller v1;
            pollers := <[t := at_rebase current]> (pollers v1);
            keyboard := keyboard v1 ++ tap (_sender (controller v1)) u1 u2 |}.
  split; [unfold step; rewrite H1; reflexivity|].
  split; [reflexivity|]. split; [reflexivity|].
  intros v2 Hv2.
  assert (H2 : pollers v2 !! t = Some (at_rebase current)).
  { apply (undisturbed_poller t _ v2 _ Hv2). simpl.
    apply list_lookup_insert_eq. exact (lookup_lt_Some _ _ _ H1). }
  split.
  { intros e v He Hstep.
    destruct (own_step_forced v2 v t _ e H2 He Hstep) as (s & a & b & Hn).
    simpl in Hn. injection Hn as <-. reflexivity. }
  exists (with_poller t at_sleep
            (with_controller (set_baseline (Some current) (controller v2)) v2)).
  split; [unfold step; rewrite H2; reflexivity|].
  split; [reflexivity|]. split; [reflexivity|]. split; [reflexivity|].
  intros v3 Hv3. apply unwritten_undisturbed in Hv3 as [Hv3 Hc3].
  assert (H3 : pollers v3 !! t = Some at_sleep).
  { apply (undisturbed_poller t _ v3 _ Hv3). simpl.
    apply list_lookup_insert_eq. exact (lookup_lt_Some _ _ _ H2). }
  exists (with_poller t at_check v3).
  split; [unfold step; rewrite H3; reflexivity|].
  intros v4 Hv4 Hon. apply unwritten_undisturbed in Hv4 as [Hv4 Hc4].
  assert (H4 : pollers v4 !! t = Some at_check).
  { apply (undisturbed_poller t _ v4 _ Hv4).
    exact (with_poller_lookup v3 t at_check _ H3). }
  exists (with_poller t (at_sample current) v4).
  split; [|exact (with_poller_lookup v4 t _ _ H4)].
  unfold step. rewrite H4, Hc4. simpl controller. rewrite Hc3. simpl.
  simpl in Hon. rewrite Hon. reflexivity.
Qed.

Lemma rebase_on_change_interleaved_witness :
  exists w1 : World,
    step watching (poll_sample 0 (Colours flashed)) = Some w1
    /\ keyboard w1 = keyboard watching
    /\ controller w1 = controller watching.
Proof.
  destruct (rebase_on_change_interleaved watching 0 steady flashed)
    as (w1 & H1 & H2 & H3 & _).
  - reflexivity.
  - vm_compute. reflexivity.
  - exists w1. split; [exact H1|]. split; [exact H2|exact H3].
Defined.
